(** * Telluride ski rental MCP server: the tool dispatcher of [src/index.ts]

    A shallow embedding of the request handlers registered in
    [telluride-ski-rental-mcp/src/index.ts] and the properties of the four
    tools ([list_ski_rentals], [get_rental_details], [search_rentals],
    [get_rental_recommendations]) that the specification states.

    JavaScript strings are sequences of UTF-16 code units and are modelled
    as [list N].  The decoded [arguments] object of a call is a finite map
    from property names to JSON values ([gmap]).  Code that can throw runs in
    a completion monad; the [try]/[catch] of the handler is [try_catch]. *)

From Stdlib Require Import String Ascii NArith List Bool Lia.
From stdpp Require Import base option list gmap.

Local Open Scope N_scope.

(** ** Strings *)

Abbreviation jsstring := (list N).

(** Source literals: every literal of [index.ts] is ASCII. *)
Fixpoint js (s : string) : jsstring :=
  match s with
  | EmptyString => []
  | String c s' => N_of_ascii c :: js s'
  end.

Definition DQUOTE : N := 34.
Definition BACKSLASH : N := 92.
Definition NEWLINE : N := 10.

(** [a === b] on two strings. *)
Definition string_strict_eq (a b : jsstring) : bool := bool_decide (a = b).

(** [s.startsWith(q)], the position test inside [includes]. *)
Fixpoint starts_with (q s : jsstring) : bool :=
  match q, s with
  | [], _ => true
  | _ :: _, [] => false
  | a :: q', b :: s' => (a =? b) && starts_with q' s'
  end.

(** [s.includes(q)]: [q] occurs in [s] as a run of code units. *)
Fixpoint includes (s q : jsstring) : bool :=
  starts_with q s ||
  match s with
  | [] => false
  | _ :: s' => includes s' q
  end.

(** [arr.join(sep)] on an array of strings. *)
Fixpoint join (sep : jsstring) (parts : list jsstring) : jsstring :=
  match parts with
  | [] => []
  | [p] => p
  | p :: rest => p ++ sep ++ join sep rest
  end.

(** The ASCII fragment of [String.prototype.toLowerCase]. *)
Definition lower_unit (c : N) : N :=
  if (65 <=? c) && (c <=? 90) then c + 32 else c.

Definition ascii_toLowerCase (s : jsstring) : jsstring := List.map lower_unit s.

Definition is_ascii (s : jsstring) : bool := forallb (fun c => c <? 128) s.

(** ** JSON.stringify(value, null, 2) *)

#[warnings="-register-all"]
Inductive json : Type :=
| JString (s : jsstring)
| JArray (items : list json)
| JObject (members : list (jsstring * json)).

Definition hex_digit (n : N) : N := if n <? 10 then 48 + n else 87 + n.

Definition unicode_escape (c : N) : jsstring :=
  [BACKSLASH; 117;
   hex_digit (c / 4096); hex_digit ((c / 256) mod 16);
   hex_digit ((c / 16) mod 16); hex_digit (c mod 16)].

Definition is_high_surrogate (c : N) : bool := (55296 <=? c) && (c <=? 56319).
Definition is_low_surrogate (c : N) : bool := (56320 <=? c) && (c <=? 57343).

(** The escape of one code unit that is not a surrogate. *)
Definition escape_unit (c : N) : jsstring :=
  if c =? 8 then [BACKSLASH; 98]
  else if c =? 9 then [BACKSLASH; 116]
  else if c =? 10 then [BACKSLASH; 110]
  else if c =? 12 then [BACKSLASH; 102]
  else if c =? 13 then [BACKSLASH; 114]
  else if c =? DQUOTE then [BACKSLASH; DQUOTE]
  else if c =? BACKSLASH then [BACKSLASH; BACKSLASH]
  else if c <? 32 then unicode_escape c
  else [c].

Fixpoint quote_body (s : jsstring) : jsstring :=
  match s with
  | [] => []
  | c :: rest =>
      if is_high_surrogate c then
        match rest with
        | d :: rest' =>
            if is_low_surrogate d then c :: d :: quote_body rest'
            else unicode_escape c ++ quote_body rest
        | [] => unicode_escape c
        end
      else if is_low_surrogate c then unicode_escape c ++ quote_body rest
      else escape_unit c ++ quote_body rest
  end.

(** QuoteJSONString *)
Definition quote (s : jsstring) : jsstring := DQUOTE :: quote_body s ++ [DQUOTE].

Definition gap : jsstring := js "  ".

(** SerializeJSONProperty with a non-empty gap; [indent] is the current
    indentation. *)
Fixpoint serialize (indent : jsstring) (v : json) : jsstring :=
  match v with
  | JString s => quote s
  | JArray [] => js "[]"
  | JArray items =>
      let stepback := indent in
      let indent := indent ++ gap in
      let separator := js "," ++ [NEWLINE] ++ indent in
      js "[" ++ [NEWLINE] ++ indent
        ++ join separator (List.map (serialize indent) items)
        ++ [NEWLINE] ++ stepback ++ js "]"
  | JObject [] => js "{}"
  | JObject members =>
      let stepback := indent in
      let indent := indent ++ gap in
      let separator := js "," ++ [NEWLINE] ++ indent in
      js "{" ++ [NEWLINE] ++ indent
        ++ join separator
             (List.map (fun m => quote (fst m) ++ js ": " ++ serialize indent (snd m))
                       members)
        ++ [NEWLINE] ++ stepback ++ js "}"
  end.

Definition JSON_stringify (v : json) : jsstring := serialize [] v.

(** Property lookup on a JSON object, first member of that name. *)
Definition json_field (k : jsstring) (v : json) : option json :=
  match v with
  | JObject members =>
      snd <$> List.find (fun m => string_strict_eq (fst m) k) members
  | _ => None
  end.

(** ** The catalog *)

Module SkiRental.
Record t : Type := mk {
  id : jsstring;
  name : jsstring;
  location : jsstring;
  address : jsstring;
  phone : jsstring;
  website : option jsstring;
  description : jsstring;
  services : list jsstring;
  rentalTypes : list jsstring;
  priceRange : jsstring;
  hours : option jsstring
}.
End SkiRental.

Definition optional_member (k : jsstring) (v : option jsstring) : list (jsstring * json) :=
  match v with
  | Some s => [(k, JString s)]
  | None => []
  end.

(** The JSON value of a record: own properties in creation order, an absent
    optional property is no member. *)
Definition to_json (r : SkiRental.t) : json :=
  JObject
    ([ (js "id", JString (SkiRental.id r));
       (js "name", JString (SkiRental.name r));
       (js "location", JString (SkiRental.location r));
       (js "address", JString (SkiRental.address r));
       (js "phone", JString (SkiRental.phone r)) ]
     ++ optional_member (js "website") (SkiRental.website r)
     ++ [ (js "description", JString (SkiRental.description r));
          (js "services", JArray (List.map JString (SkiRental.services r)));
          (js "rentalTypes", JArray (List.map JString (SkiRental.rentalTypes r)));
          (js "priceRange", JString (SkiRental.priceRange r)) ]
     ++ optional_member (js "hours") (SkiRental.hours r)).

Definition telluride_sports : SkiRental.t := {|
  SkiRental.id := js "telluride-sports";
  SkiRental.name := js "Telluride Sports";
  SkiRental.location := js "Telluride";
  SkiRental.address := js "150 W Colorado Ave, Telluride, CO 81435";
  SkiRental.phone := js "(970) 728-4477";
  SkiRental.website := Some (js "https://www.tellurideports.com");
  SkiRental.description := js "Full-service ski and snowboard shop in downtown Telluride offering premium rentals, demos, and expert fitting services.";
  SkiRental.services := [js "Ski Rentals"; js "Snowboard Rentals"; js "Demo Equipment"; js "Tune-ups"; js "Repairs"; js "Boot Fitting"];
  SkiRental.rentalTypes := [js "Adult Skis"; js "Junior Skis"; js "Performance Skis"; js "Snowboards"; js "Boots"; js "Poles"; js "Helmets"];
  SkiRental.priceRange := js "$40-$80/day";
  SkiRental.hours := Some (js "8:00 AM - 6:00 PM daily")
|}.

Definition bootdoctors : SkiRental.t := {|
  SkiRental.id := js "bootdoctors";
  SkiRental.name := js "Bootdoctors";
  SkiRental.location := js "Mountain Village";
  SkiRental.address := js "568 Mountain Village Blvd, Mountain Village, CO 81435";
  SkiRental.phone := js "(970) 728-4882";
  SkiRental.website := Some (js "https://www.bootdoctors.com");
  SkiRental.description := js "Renowned for custom boot fitting and high-performance ski rentals. Located at the base of the gondola in Mountain Village.";
  SkiRental.services := [js "Premium Rentals"; js "Custom Boot Fitting"; js "Expert Advice"; js "Demo Skis"; js "Repairs"];
  SkiRental.rentalTypes := [js "High-Performance Skis"; js "All-Mountain Skis"; js "Powder Skis"; js "Touring Equipment"; js "Custom Boots"];
  SkiRental.priceRange := js "$50-$100/day";
  SkiRental.hours := Some (js "8:00 AM - 5:00 PM daily")
|}.

Definition jagged_edge : SkiRental.t := {|
  SkiRental.id := js "jagged-edge";
  SkiRental.name := js "Jagged Edge Mountain Gear";
  SkiRental.location := js "Telluride";
  SkiRental.address := js "223 E Colorado Ave, Telluride, CO 81435";
  SkiRental.phone := js "(970) 728-9264";
  SkiRental.website := Some (js "https://www.jaggededgemountaingear.com");
  SkiRental.description := js "Local favorite offering quality ski rentals, backcountry gear, and personalized service in downtown Telluride.";
  SkiRental.services := [js "Ski Rentals"; js "Backcountry Gear"; js "Avalanche Safety Equipment"; js "Repairs"; js "Expert Consultation"];
  SkiRental.rentalTypes := [js "All-Mountain Skis"; js "Backcountry Skis"; js "Touring Gear"; js "Splitboards"; js "Safety Equipment"];
  SkiRental.priceRange := js "$35-$75/day";
  SkiRental.hours := Some (js "8:00 AM - 6:00 PM daily")
|}.

Definition paragon_ski_snowboard : SkiRental.t := {|
  SkiRental.id := js "paragon-ski-snowboard";
  SkiRental.name := js "Paragon Ski & Snowboard";
  SkiRental.location := js "Mountain Village";
  SkiRental.address := js "Mountain Village Plaza, Mountain Village, CO 81435";
  SkiRental.phone := js "(970) 369-0435";
  SkiRental.website := Some (js "https://www.paragontelluride.com");
  SkiRental.description := js "Conveniently located in Mountain Village offering a wide selection of rental equipment for all skill levels.";
  SkiRental.services := [js "Ski Rentals"; js "Snowboard Rentals"; js "Group Rentals"; js "Online Reservations"; js "Delivery Service"];
  SkiRental.rentalTypes := [js "Beginner Packages"; js "Intermediate Skis"; js "Advanced Skis"; js "Snowboards"; js "Kids Equipment"];
  SkiRental.priceRange := js "$35-$70/day";
  SkiRental.hours := Some (js "7:30 AM - 5:30 PM daily")
|}.

Definition telluride_ski_rental_delivery : SkiRental.t := {|
  SkiRental.id := js "telluride-ski-rental-delivery";
  SkiRental.name := js "Telluride Ski Rental Delivery";
  SkiRental.location := js "Telluride (Delivery Service)";
  SkiRental.address := js "Delivery to your location in Telluride area";
  SkiRental.phone := js "(970) 708-8754";
  SkiRental.website := Some (js "https://www.tellurideskirentaldelivery.com");
  SkiRental.description := js "Premium ski rental delivery service bringing equipment directly to your accommodation with professional fitting.";
  SkiRental.services := [js "Delivery Service"; js "In-Room Fitting"; js "Premium Equipment"; js "Flexible Pickup"; js "24/7 Support"];
  SkiRental.rentalTypes := [js "Premium Skis"; js "High-End Snowboards"; js "Kids Equipment"; js "Full Packages"];
  SkiRental.priceRange := js "$45-$90/day + delivery fee";
  SkiRental.hours := Some (js "By appointment - 7 days a week")
|}.

Definition mountain_sports_telluride : SkiRental.t := {|
  SkiRental.id := js "mountain-sports-telluride";
  SkiRental.name := js "Mountain Sports Telluride";
  SkiRental.location := js "Telluride";
  SkiRental.address := js "100 W San Juan Ave, Telluride, CO 81435";
  SkiRental.phone := js "(970) 728-4239";
  SkiRental.website := None;
  SkiRental.description := js "Long-established Telluride shop offering affordable ski rentals and expert local knowledge.";
  SkiRental.services := [js "Ski Rentals"; js "Snowboard Rentals"; js "Repairs"; js "Waxing"; js "Tune-ups"];
  SkiRental.rentalTypes := [js "Standard Skis"; js "Performance Skis"; js "Snowboards"; js "Kids Equipment"; js "Boots"; js "Helmets"];
  SkiRental.priceRange := js "$30-$65/day";
  SkiRental.hours := Some (js "8:00 AM - 6:00 PM daily")
|}.

Definition skiRentals : list SkiRental.t :=
  [ telluride_sports; bootdoctors; jagged_edge; paragon_ski_snowboard;
    telluride_ski_rental_delivery; mountain_sports_telluride ].

(** ** Values, exceptions and the call envelope *)

(** A value found in the decoded [arguments] object.  A number is carried
    as its [Number::toString] rendering; an object or array as the result of
    converting it to a string (none when [ToPrimitive] throws, as for an
    object whose own [toString] and [valueOf] members are not callable). *)
Inductive jsvalue : Type :=
| VUndefined
| VNull
| VBool (b : bool)
| VNumber (shown : jsstring)
| VString (s : jsstring)
| VObject (shown : option jsstring).

(** The run-time faults the handler can meet; all are [TypeError]s. *)
Inductive fault : Type :=
| ReadPropertyOfUndefined (prop : jsstring)
| ReadPropertyOfNull (prop : jsstring)
| NotAFunction (callee : jsstring)
| CannotConvertToPrimitive.

(** A thrown value: an [Error] object with its [message], or anything else
    with its [String(...)] rendering. *)
Inductive thrown : Type :=
| ErrorObject (message : jsstring)
| OtherValue (shown : jsstring).

Inductive completion (A : Type) : Type :=
| Normal (a : A)
| Throw (e : thrown).
Arguments Normal {A} a.
Arguments Throw {A} e.

#[global] Instance completion_ret : MRet completion := fun A a => Normal a.
#[global] Instance completion_bind : MBind completion := fun A B f m =>
  match m with
  | Normal a => f a
  | Throw e => Throw e
  end.

Record content_block : Type := { type : jsstring; text : jsstring }.

(** The object a handler returns; [isError] is absent on success. *)
Record CallToolResult : Type := {
  content : list content_block;
  isError : option bool
}.

Module CallToolRequest.
(** [request.params]: the tool name and the optional arguments object. *)
Record params : Type := {
  name : jsstring;
  arguments : option (gmap jsstring jsvalue)
}.
End CallToolRequest.

Definition request (name : jsstring) (args : option (gmap jsstring jsvalue))
  : CallToolRequest.params :=
  {| CallToolRequest.name := name; CallToolRequest.arguments := args |}.

Definition text_block (t : jsstring) : content_block :=
  {| type := js "text"; text := t |}.

Definition success (t : jsstring) : CallToolResult :=
  {| content := [text_block t]; isError := None |}.

Definition failure (t : jsstring) : CallToolResult :=
  {| content := [text_block t]; isError := Some true |}.

(** [s === v] for a string [s]: no conversion, other types never equal. *)
Definition strict_equals (s : jsstring) (v : jsvalue) : bool :=
  match v with
  | VString t => string_strict_eq s t
  | _ => false
  end.

(** ** The tool registry (the [ListToolsRequestSchema] handler) *)

Module Tool.
Record property : Type := { type : jsstring; prop_description : jsstring }.
Record t : Type := {
  name : jsstring;
  description : jsstring;
  properties : list (jsstring * property);
  required : option (list jsstring)
}.
End Tool.

Definition tools : list Tool.t :=
  [ {| Tool.name := js "list_ski_rentals";
       Tool.description := js "Get a list of all ski rental places near Telluride, Colorado with their details";
       Tool.properties := [];
       Tool.required := None |};
    {| Tool.name := js "get_rental_details";
       Tool.description := js "Get detailed information about a specific ski rental shop by ID";
       Tool.properties :=
         [(js "rental_id",
           {| Tool.type := js "string";
              Tool.prop_description := js "The ID of the ski rental shop" |})];
       Tool.required := Some [js "rental_id"] |};
    {| Tool.name := js "search_rentals";
       Tool.description := js "Search for ski rental shops by location, service type, or rental type";
       Tool.properties :=
         [(js "query",
           {| Tool.type := js "string";
              Tool.prop_description := js "Search query (location, service, or equipment type)" |})];
       Tool.required := Some [js "query"] |};
    {| Tool.name := js "get_rental_recommendations";
       Tool.description := js "Get ski rental recommendations based on needs (beginner, expert, backcountry, delivery, etc.)";
       Tool.properties :=
         [(js "need",
           {| Tool.type := js "string";
              Tool.prop_description := js "Type of need: 'beginner', 'expert', 'backcountry', 'delivery', 'budget', 'premium', 'family'" |})];
       Tool.required := Some [js "need"] |} ].

Definition registered (name : jsstring) : Prop :=
  name ∈ List.map Tool.name tools.

Definition required_arguments (name : jsstring) : list jsstring :=
  match List.find (fun t => string_strict_eq (Tool.name t) name) tools with
  | Some t => default [] (Tool.required t)
  | None => []
  end.

(** ** The [CallToolRequestSchema] handler *)

Section Handlers.

(** The two things the handler takes from the JavaScript engine:
    [String.prototype.toLowerCase] and the message text of the
    [TypeError] raised for a fault. *)
Variable toLowerCase : jsstring -> jsstring.
Variable TypeError_message : fault -> jsstring.

Definition raise {A : Type} (f : fault) : completion A :=
  Throw (ErrorObject (TypeError_message f)).

(** [args.k]: reading a property of [undefined] throws; a property the
    object lacks reads as [undefined]. *)
Definition get_property (args : option (gmap jsstring jsvalue)) (k : jsstring)
  : completion jsvalue :=
  match args with
  | None => raise (ReadPropertyOfUndefined k)
  | Some o => Normal (default VUndefined (o !! k))
  end.

(** [(v as string).toLowerCase()]: the cast is erased at run time. *)
Definition call_toLowerCase (owner : jsstring) (v : jsvalue) : completion jsstring :=
  match v with
  | VString s => Normal (toLowerCase s)
  | VUndefined => raise (ReadPropertyOfUndefined (js "toLowerCase"))
  | VNull => raise (ReadPropertyOfNull (js "toLowerCase"))
  | VBool _ | VNumber _ | VObject _ =>
      raise (NotAFunction (owner ++ js ".toLowerCase"))
  end.

(** [`${v}`] *)
Definition ToString (v : jsvalue) : completion jsstring :=
  match v with
  | VUndefined => Normal (js "undefined")
  | VNull => Normal (js "null")
  | VBool true => Normal (js "true")
  | VBool false => Normal (js "false")
  | VNumber shown => Normal shown
  | VString s => Normal s
  | VObject (Some shown) => Normal shown
  | VObject None => raise CannotConvertToPrimitive
  end.

Definition not_found_text (shown : jsstring) : jsstring :=
  js "Ski rental shop with ID " ++ [DQUOTE] ++ shown ++ [DQUOTE] ++ js " not found.".

(** The callback of [skiRentals.filter] in the [search_rentals] branch. *)
Definition search_matches (query : jsstring) (rental : SkiRental.t) : bool :=
  includes (toLowerCase (SkiRental.name rental)) query
  || includes (toLowerCase (SkiRental.location rental)) query
  || includes (toLowerCase (SkiRental.description rental)) query
  || existsb (fun s => includes (toLowerCase s) query) (SkiRental.services rental)
  || existsb (fun t => includes (toLowerCase t) query) (SkiRental.rentalTypes rental).

Record recommendation_response : Type := {
  explanation : jsstring;
  recommendations : list SkiRental.t
}.

Definition generic_explanation : jsstring :=
  js "Here are all available ski rental options in the Telluride area.".

Definition premium_explanation : jsstring :=
  js "These shops offer premium equipment and high-end services for the best skiing experience.".

(** The [switch (need)] of the [get_rental_recommendations] branch; [need]
    is already lower-cased. *)
Definition recommend (store : list SkiRental.t) (need : jsstring)
  : recommendation_response :=
  if string_strict_eq need (js "beginner") then
    {| recommendations :=
         List.filter (fun r =>
           existsb (fun t => includes (toLowerCase t) (js "beginner")) (SkiRental.rentalTypes r)
           || string_strict_eq (SkiRental.id r) (js "paragon-ski-snowboard")
           || string_strict_eq (SkiRental.id r) (js "mountain-sports-telluride")) store;
       explanation := js "These shops offer beginner-friendly equipment and packages with great service for first-timers." |}
  else if string_strict_eq need (js "expert") || string_strict_eq need (js "advanced") then
    {| recommendations :=
         List.filter (fun r =>
           existsb (fun t => includes (toLowerCase t) (js "performance")
                             || includes (toLowerCase t) (js "premium")) (SkiRental.rentalTypes r)
           || string_strict_eq (SkiRental.id r) (js "bootdoctors")
           || string_strict_eq (SkiRental.id r) (js "telluride-sports")) store;
       explanation := js "These shops specialize in high-performance equipment and expert boot fitting for advanced skiers." |}
  else if string_strict_eq need (js "backcountry") || string_strict_eq need (js "touring") then
    {| recommendations :=
         List.filter (fun r =>
           existsb (fun s => includes (toLowerCase s) (js "backcountry")) (SkiRental.services r)
           || existsb (fun t => includes (toLowerCase t) (js "backcountry")
                                || includes (toLowerCase t) (js "touring")) (SkiRental.rentalTypes r)) store;
       explanation := js "These shops offer backcountry and touring equipment with avalanche safety gear." |}
  else if string_strict_eq need (js "delivery") then
    {| recommendations :=
         List.filter (fun r =>
           existsb (fun s => includes (toLowerCase s) (js "delivery")) (SkiRental.services r)
           || string_strict_eq (SkiRental.id r) (js "telluride-ski-rental-delivery")) store;
       explanation := js "These shops offer delivery service to your accommodation." |}
  else if string_strict_eq need (js "budget") || string_strict_eq need (js "affordable") then
    {| recommendations :=
         List.filter (fun r =>
           includes (SkiRental.priceRange r) (js "$30")
           || includes (SkiRental.priceRange r) (js "$35")
           || string_strict_eq (SkiRental.id r) (js "mountain-sports-telluride")) store;
       explanation := js "These shops offer the most affordable rental options in the Telluride area." |}
  else if string_strict_eq need (js "premium") || string_strict_eq need (js "luxury") then
    {| recommendations :=
         List.filter (fun r =>
           string_strict_eq (SkiRental.id r) (js "bootdoctors")
           || string_strict_eq (SkiRental.id r) (js "telluride-ski-rental-delivery")
           || string_strict_eq (SkiRental.id r) (js "telluride-sports")) store;
       explanation := premium_explanation |}
  else if string_strict_eq need (js "family") || string_strict_eq need (js "kids") then
    {| recommendations :=
         List.filter (fun r =>
           existsb (fun t => includes (toLowerCase t) (js "kids")
                             || includes (toLowerCase t) (js "junior")) (SkiRental.rentalTypes r)) store;
       explanation := js "These shops have great options for families and children's equipment." |}
  else
    {| recommendations := store; explanation := generic_explanation |}.

Definition response_json (response : recommendation_response) : json :=
  JObject [ (js "explanation", JString (explanation response));
            (js "recommendations", JArray (List.map to_json (recommendations response))) ].

(** The body of the [try] block, over the module-level array [store]. *)
Definition try_block (store : list SkiRental.t) (name : jsstring)
    (args : option (gmap jsstring jsvalue)) : completion CallToolResult :=
  if string_strict_eq name (js "list_ski_rentals") then
    mret (success (JSON_stringify (JArray (List.map to_json store))))
  else if string_strict_eq name (js "get_rental_details") then
    rentalId ← get_property args (js "rental_id");
    match List.find (fun r => strict_equals (SkiRental.id r) rentalId) store with
    | None =>
        shown ← ToString rentalId;
        mret (failure (not_found_text shown))
    | Some rental => mret (success (JSON_stringify (to_json rental)))
    end
  else if string_strict_eq name (js "search_rentals") then
    q ← get_property args (js "query");
    query ← call_toLowerCase (js "args.query") q;
    let results := List.filter (search_matches query) store in
    mret (success (JSON_stringify (JArray (List.map to_json results))))
  else if string_strict_eq name (js "get_rental_recommendations") then
    n ← get_property args (js "need");
    need ← call_toLowerCase (js "args.need") n;
    mret (success (JSON_stringify (response_json (recommend store need))))
  else
    mret (failure (js "Unknown tool: " ++ name)).

(** [error instanceof Error ? error.message : String(error)] *)
Definition error_text (e : thrown) : jsstring :=
  match e with
  | ErrorObject message => message
  | OtherValue shown => shown
  end.

(** The [catch] clause around the [try] block. *)
Definition try_catch (c : completion CallToolResult) : completion CallToolResult :=
  match c with
  | Normal r => Normal r
  | Throw e => Normal (failure (js "Error: " ++ error_text e))
  end.

(** One call: the completion of the handler and the array afterwards.  No
    branch assigns to the array or to a record of it. *)
Definition CallTool_handler (request : CallToolRequest.params)
    (store : list SkiRental.t) : completion CallToolResult * list SkiRental.t :=
  (try_catch (try_block store (CallToolRequest.name request)
                        (CallToolRequest.arguments request)),
   store).

End Handlers.

(** The messages V8 gives the faults, for running the handler. *)
Definition v8_message (f : fault) : jsstring :=
  match f with
  | ReadPropertyOfUndefined prop =>
      js "Cannot read properties of undefined (reading '" ++ prop ++ js "')"
  | ReadPropertyOfNull prop =>
      js "Cannot read properties of null (reading '" ++ prop ++ js "')"
  | NotAFunction callee => callee ++ js " is not a function"
  | CannotConvertToPrimitive => js "Cannot convert object to primitive value"
  end.

(** ** The catalog in memory

    [skiRentals] is an array object whose elements are references to record
    objects; [services] and [rentalTypes] of a record are array objects of
    their own.  All of them are mutable, so the handler is also given over a
    heap of such objects: it reads them through their references, [filter]
    and the array literal [[]] allocate a new array, and the default case of
    the switch passes the catalog array itself on.  The arguments of a call
    and the result object handed back are values, not heap objects. *)

Abbreviation loc := positive.

Module RentalObject.
Record t : Type := mk {
  id : jsstring;
  name : jsstring;
  location : jsstring;
  address : jsstring;
  phone : jsstring;
  website : option jsstring;
  description : jsstring;
  services : loc;
  rentalTypes : loc;
  priceRange : jsstring;
  hours : option jsstring
}.
End RentalObject.

Inductive cell : Type :=
| Rental (o : RentalObject.t)
| ObjectArray (elements : list loc)
| StringArray (elements : list jsstring).

Abbreviation heap := (gmap positive cell).

(** A computation on the heap: it completes normally or throws, and leaves
    a heap; there is no result when a reference does not point to an object
    of the expected kind. *)
Record heap_op (A : Type) : Type := HeapOp {
  run : heap → option (completion A * heap)
}.
Arguments HeapOp {A} run.
Arguments run {A} _ _.

#[global] Instance heap_op_ret : MRet heap_op := fun A a =>
  HeapOp (fun h => Some (Normal a, h)).
#[global] Instance heap_op_bind : MBind heap_op := fun A B f m =>
  HeapOp (fun h =>
    match run m h with
    | Some (Normal a, h') => run (f a) h'
    | Some (Throw e, h') => Some (Throw e, h')
    | None => None
    end).

(** A step that does not touch the heap. *)
Definition lift {A : Type} (c : completion A) : heap_op A :=
  HeapOp (fun h => Some (c, h)).

Definition read_rental (l : loc) : heap_op RentalObject.t :=
  HeapOp (fun h =>
    match h !! l with
    | Some (Rental o) => Some (Normal o, h)
    | _ => None
    end).

Definition read_objects (l : loc) : heap_op (list loc) :=
  HeapOp (fun h =>
    match h !! l with
    | Some (ObjectArray elements) => Some (Normal elements, h)
    | _ => None
    end).

Definition read_strings (l : loc) : heap_op (list jsstring) :=
  HeapOp (fun h =>
    match h !! l with
    | Some (StringArray elements) => Some (Normal elements, h)
    | _ => None
    end).

(** A new object, at a reference that is not in use. *)
Definition allocate (c : cell) : heap_op loc :=
  HeapOp (fun h => let l := fresh (dom h) in Some (Normal l, <[l := c]> h)).

(** [r.property] *)
Definition get {A : Type} (property : RentalObject.t → A) (r : loc) : heap_op A :=
  o ← read_rental r; mret (property o).

(** [a || b] *)
Definition or_else (a b : heap_op bool) : heap_op bool :=
  a ≫= fun x : bool => if x then mret true else b.

(** [arr.some(cb)] on an array of strings. *)
Definition array_some (arr : loc) (cb : jsstring → bool) : heap_op bool :=
  elements ← read_strings arr; mret (existsb cb elements).

Fixpoint filter_elements (cb : loc → heap_op bool) (elements : list loc)
  : heap_op (list loc) :=
  match elements with
  | [] => mret []
  | r :: rest =>
      cb r ≫= fun keep : bool =>
      kept ← filter_elements cb rest;
      mret (if keep then r :: kept else kept)
  end.

(** [arr.filter(cb)]: a new array of the elements the callback keeps. *)
Definition array_filter (arr : loc) (cb : loc → heap_op bool) : heap_op loc :=
  elements ← read_objects arr;
  kept ← filter_elements cb elements;
  allocate (ObjectArray kept).

Fixpoint find_element (cb : loc → heap_op bool) (elements : list loc)
  : heap_op (option loc) :=
  match elements with
  | [] => mret None
  | r :: rest =>
      cb r ≫= fun found : bool =>
      if found then mret (Some r) else find_element cb rest
  end.

(** [arr.find(cb)]: the first element the callback accepts, or [undefined]. *)
Definition array_find (arr : loc) (cb : loc → heap_op bool) : heap_op (option loc) :=
  elements ← read_objects arr; find_element cb elements.

(** The properties of a record object as [JSON.stringify] reads them. *)
Definition read_record (r : loc) : heap_op SkiRental.t :=
  o ← read_rental r;
  services ← read_strings (RentalObject.services o);
  rentalTypes ← read_strings (RentalObject.rentalTypes o);
  mret {| SkiRental.id := RentalObject.id o;
          SkiRental.name := RentalObject.name o;
          SkiRental.location := RentalObject.location o;
          SkiRental.address := RentalObject.address o;
          SkiRental.phone := RentalObject.phone o;
          SkiRental.website := RentalObject.website o;
          SkiRental.description := RentalObject.description o;
          SkiRental.services := services;
          SkiRental.rentalTypes := rentalTypes;
          SkiRental.priceRange := RentalObject.priceRange o;
          SkiRental.hours := RentalObject.hours o |}.

Definition record_json (r : loc) : heap_op json :=
  record ← read_record r; mret (to_json record).

Fixpoint elements_json (elements : list loc) : heap_op (list json) :=
  match elements with
  | [] => mret []
  | r :: rest =>
      v ← record_json r;
      vs ← elements_json rest;
      mret (v :: vs)
  end.

Definition array_json (arr : loc) : heap_op json :=
  elements ← read_objects arr;
  vs ← elements_json elements;
  mret (JArray vs).

(** The evaluation of the array literal of [skiRentals]. *)
Definition allocate_rental (r : SkiRental.t) : heap_op loc :=
  services ← allocate (StringArray (SkiRental.services r));
  rentalTypes ← allocate (StringArray (SkiRental.rentalTypes r));
  allocate (Rental {| RentalObject.id := SkiRental.id r;
                      RentalObject.name := SkiRental.name r;
                      RentalObject.location := SkiRental.location r;
                      RentalObject.address := SkiRental.address r;
                      RentalObject.phone := SkiRental.phone r;
                      RentalObject.website := SkiRental.website r;
                      RentalObject.description := SkiRental.description r;
                      RentalObject.services := services;
                      RentalObject.rentalTypes := rentalTypes;
                      RentalObject.priceRange := SkiRental.priceRange r;
                      RentalObject.hours := SkiRental.hours r |}).

Fixpoint allocate_rentals (records : list SkiRental.t) : heap_op (list loc) :=
  match records with
  | [] => mret []
  | r :: rest =>
      l ← allocate_rental r;
      ls ← allocate_rentals rest;
      mret (l :: ls)
  end.

Definition load_catalog (records : list SkiRental.t) : heap_op loc :=
  elements ← allocate_rentals records;
  allocate (ObjectArray elements).

Section HeapHandlers.

Variable toLowerCase : jsstring -> jsstring.
Variable TypeError_message : fault -> jsstring.

(** The reference held by the constant [skiRentals]. *)
Variable skiRentals_ref : loc.

(** [r.tags.some((t) => t.toLowerCase().includes(word))] *)
Definition some_includes (tags : RentalObject.t → loc) (word : jsstring) (r : loc)
  : heap_op bool :=
  arr ← get tags r;
  array_some arr (fun t => includes (toLowerCase t) word).

(** [r.tags.some((t) => t.toLowerCase().includes(word) ||
    t.toLowerCase().includes(word'))] *)
Definition some_includes_either (tags : RentalObject.t → loc) (word word' : jsstring)
    (r : loc) : heap_op bool :=
  arr ← get tags r;
  array_some arr (fun t => includes (toLowerCase t) word
                        || includes (toLowerCase t) word').

(** [r.id === text] *)
Definition id_is (text : jsstring) (r : loc) : heap_op bool :=
  id ← get RentalObject.id r; mret (string_strict_eq id text).

(** The callback of [skiRentals.filter] in the [search_rentals] branch. *)
Definition search_callback (query : jsstring) (rental : loc) : heap_op bool :=
  or_else (or_else (or_else (or_else
    (name ← get RentalObject.name rental;
     mret (includes (toLowerCase name) query))
    (location ← get RentalObject.location rental;
     mret (includes (toLowerCase location) query)))
    (description ← get RentalObject.description rental;
     mret (includes (toLowerCase description) query)))
    (some_includes RentalObject.services query rental))
    (some_includes RentalObject.rentalTypes query rental).

Record recommendation_object : Type := {
  explanation_text : jsstring;
  recommendations_ref : loc
}.

(** The [switch (need)] over the heap. *)
Definition recommend_heap (need : jsstring) : heap_op recommendation_object :=
  if string_strict_eq need (js "beginner") then
    recommendations ← array_filter skiRentals_ref (fun r =>
      or_else (or_else
        (some_includes RentalObject.rentalTypes (js "beginner") r)
        (id_is (js "paragon-ski-snowboard") r))
        (id_is (js "mountain-sports-telluride") r));
    mret {| recommendations_ref := recommendations;
            explanation_text := js "These shops offer beginner-friendly equipment and packages with great service for first-timers." |}
  else if string_strict_eq need (js "expert") || string_strict_eq need (js "advanced") then
    recommendations ← array_filter skiRentals_ref (fun r =>
      or_else (or_else
        (some_includes_either RentalObject.rentalTypes (js "performance") (js "premium") r)
        (id_is (js "bootdoctors") r))
        (id_is (js "telluride-sports") r));
    mret {| recommendations_ref := recommendations;
            explanation_text := js "These shops specialize in high-performance equipment and expert boot fitting for advanced skiers." |}
  else if string_strict_eq need (js "backcountry") || string_strict_eq need (js "touring") then
    recommendations ← array_filter skiRentals_ref (fun r =>
      or_else
        (some_includes RentalObject.services (js "backcountry") r)
        (some_includes_either RentalObject.rentalTypes (js "backcountry") (js "touring") r));
    mret {| recommendations_ref := recommendations;
            explanation_text := js "These shops offer backcountry and touring equipment with avalanche safety gear." |}
  else if string_strict_eq need (js "delivery") then
    recommendations ← array_filter skiRentals_ref (fun r =>
      or_else
        (some_includes RentalObject.services (js "delivery") r)
        (id_is (js "telluride-ski-rental-delivery") r));
    mret {| recommendations_ref := recommendations;
            explanation_text := js "These shops offer delivery service to your accommodation." |}
  else if string_strict_eq need (js "budget") || string_strict_eq need (js "affordable") then
    recommendations ← array_filter skiRentals_ref (fun r =>
      or_else (or_else
        (priceRange ← get RentalObject.priceRange r;
         mret (includes priceRange (js "$30")))
        (priceRange ← get RentalObject.priceRange r;
         mret (includes priceRange (js "$35"))))
        (id_is (js "mountain-sports-telluride") r));
    mret {| recommendations_ref := recommendations;
            explanation_text := js "These shops offer the most affordable rental options in the Telluride area." |}
  else if string_strict_eq need (js "premium") || string_strict_eq need (js "luxury") then
    recommendations ← array_filter skiRentals_ref (fun r =>
      or_else (or_else
        (id_is (js "bootdoctors") r)
        (id_is (js "telluride-ski-rental-delivery") r))
        (id_is (js "telluride-sports") r));
    mret {| recommendations_ref := recommendations;
            explanation_text := premium_explanation |}
  else if string_strict_eq need (js "family") || string_strict_eq need (js "kids") then
    recommendations ← array_filter skiRentals_ref (fun r =>
      some_includes_either RentalObject.rentalTypes (js "kids") (js "junior") r);
    mret {| recommendations_ref := recommendations;
            explanation_text := js "These shops have great options for families and children's equipment." |}
  else
    mret {| recommendations_ref := skiRentals_ref;
            explanation_text := generic_explanation |}.

(** The body of the [try] block over the heap. *)
Definition try_block_heap (name : jsstring) (args : option (gmap jsstring jsvalue))
  : heap_op CallToolResult :=
  if string_strict_eq name (js "list_ski_rentals") then
    v ← array_json skiRentals_ref;
    mret (success (JSON_stringify v))
  else if string_strict_eq name (js "get_rental_details") then
    rentalId ← lift (get_property TypeError_message args (js "rental_id"));
    rental ← array_find skiRentals_ref (fun r =>
      id ← get RentalObject.id r; mret (strict_equals id rentalId));
    match rental with
    | None =>
        shown ← lift (ToString TypeError_message rentalId);
        mret (failure (not_found_text shown))
    | Some rental =>
        v ← record_json rental;
        mret (success (JSON_stringify v))
    end
  else if string_strict_eq name (js "search_rentals") then
    q ← lift (get_property TypeError_message args (js "query"));
    query ← lift (call_toLowerCase toLowerCase TypeError_message (js "args.query") q);
    results ← array_filter skiRentals_ref (search_callback query);
    v ← array_json results;
    mret (success (JSON_stringify v))
  else if string_strict_eq name (js "get_rental_recommendations") then
    n ← lift (get_property TypeError_message args (js "need"));
    need ← lift (call_toLowerCase toLowerCase TypeError_message (js "args.need") n);
    initial ← allocate (ObjectArray []);
    response ← recommend_heap need;
    v ← array_json (recommendations_ref response);
    mret (success (JSON_stringify (JObject
           [ (js "explanation", JString (explanation_text response));
             (js "recommendations", v) ])))
  else
    mret (failure (js "Unknown tool: " ++ name)).

(** The [catch] clause: the heap is the one the throw left. *)
Definition try_catch_heap (m : heap_op CallToolResult) : heap_op CallToolResult :=
  HeapOp (fun h =>
    match run m h with
    | Some (Throw e, h') => Some (Normal (failure (js "Error: " ++ error_text e)), h')
    | other => other
    end).

Definition CallTool_handler_heap (request : CallToolRequest.params)
  : heap_op CallToolResult :=
  try_catch_heap (try_block_heap (CallToolRequest.name request)
                                 (CallToolRequest.arguments request)).

(** The server answering a sequence of calls one at a time, each on the heap
    the one before left. *)
Fixpoint serve_heap (requests : list CallToolRequest.params) (h : heap)
  : option (list (completion CallToolResult) * heap) :=
  match requests with
  | [] => Some ([], h)
  | request :: rest =>
      match run (CallTool_handler_heap request) h with
      | Some (answer, h') =>
          match serve_heap rest h' with
          | Some (answers, h'') => Some (answer :: answers, h'')
          | None => None
          end
      | None => None
      end
  end.

End HeapHandlers.

(** ** The specification's wording *)

(** [q] is a substring of [s]. *)
Definition occurs_in (q s : jsstring) : Prop :=
  ∃ pre post, s = pre ++ q ++ post.

(** The case labels of the [switch (need)]. *)
Definition recognized_keywords : list jsstring :=
  [ js "beginner"; js "expert"; js "advanced"; js "backcountry"; js "touring";
    js "delivery"; js "budget"; js "affordable"; js "premium"; js "luxury";
    js "family"; js "kids" ].

(** The three ids of the [premium] / [luxury] case. *)
Definition premium_ids : list jsstring :=
  [ js "bootdoctors"; js "telluride-ski-rental-delivery"; js "telluride-sports" ].

(** The wording of the specification for the miss of [get_details]. *)
Definition spec_not_found_text (shown : jsstring) : jsstring :=
  js "Record with id " ++ [DQUOTE] ++ shown ++ [DQUOTE] ++ js " not found.".

(** A required argument is omitted: no arguments object, or no such member. *)
Definition omitted (k : jsstring) (args : option (gmap jsstring jsvalue)) : Prop :=
  match args with
  | None => True
  | Some o => o !! k = None
  end.

Section Wording.

Variable toLowerCase : jsstring -> jsstring.

(** The specification's search predicate: the (lower-cased) query is a
    substring of the lower-cased name, location or description, or of a
    lower-cased element of [services] or [rentalTypes]. *)
Definition matches_query (query : jsstring) (r : SkiRental.t) : Prop :=
  occurs_in query (toLowerCase (SkiRental.name r))
  ∨ occurs_in query (toLowerCase (SkiRental.location r))
  ∨ occurs_in query (toLowerCase (SkiRental.description r))
  ∨ (∃ s, s ∈ SkiRental.services r ∧ occurs_in query (toLowerCase s))
  ∨ (∃ t, t ∈ SkiRental.rentalTypes r ∧ occurs_in query (toLowerCase t)).

(** The default case of the switch. *)
Definition all_records (store : list SkiRental.t) : recommendation_response :=
  {| explanation := generic_explanation; recommendations := store |}.

End Wording.

(** The argument names a tool declares under [properties] in the registry. *)
Definition declared_properties (name : jsstring) : list jsstring :=
  match List.find (fun t => string_strict_eq (Tool.name t) name) tools with
  | Some t => List.map fst (Tool.properties t)
  | None => []
  end.

(** The case labels that share a case of the switch. *)
Definition alias_labels : list (jsstring * jsstring) :=
  [ (js "expert", js "advanced"); (js "backcountry", js "touring");
    (js "budget", js "affordable"); (js "premium", js "luxury");
    (js "family", js "kids") ].

Section Tags.

Variable toLowerCase : jsstring -> jsstring.

(** Some element of [tags] contains [word] once lower-cased. *)
Definition has_tag (word : jsstring) (tags : list jsstring) : Prop :=
  ∃ t, t ∈ tags ∧ occurs_in word (toLowerCase t).

End Tags.

(** What a heap holds: the record object at [l] has the properties of [r],
    its two tag arrays included. *)
Definition object_of (r : SkiRental.t) (services rentalTypes : loc) : RentalObject.t :=
  {| RentalObject.id := SkiRental.id r;
     RentalObject.name := SkiRental.name r;
     RentalObject.location := SkiRental.location r;
     RentalObject.address := SkiRental.address r;
     RentalObject.phone := SkiRental.phone r;
     RentalObject.website := SkiRental.website r;
     RentalObject.description := SkiRental.description r;
     RentalObject.services := services;
     RentalObject.rentalTypes := rentalTypes;
     RentalObject.priceRange := SkiRental.priceRange r;
     RentalObject.hours := SkiRental.hours r |}.

Definition rental_at (h : heap) (l : loc) (r : SkiRental.t) : Prop :=
  ∃ services rentalTypes,
    h !! l = Some (Rental (object_of r services rentalTypes))
    ∧ h !! services = Some (StringArray (SkiRental.services r))
    ∧ h !! rentalTypes = Some (StringArray (SkiRental.rentalTypes r)).

(** The array object at [arr] holds, in order, references to record objects
    with the properties of the records of [store]. *)
Definition represents (h : heap) (arr : loc) (store : list SkiRental.t) : Prop :=
  ∃ elements,
    h !! arr = Some (ObjectArray elements)
    ∧ Forall2 (rental_at h) elements store.

(** [m] completes normally with [v] on [h] and leaves [h] as it is. *)
Definition reads {A : Type} (m : heap_op A) (h : heap) (v : A) : Prop :=
  run m h = Some (Normal v, h).

(** ** Sample calls *)

Definition backcountry_query : gmap jsstring jsvalue :=
  {[ js "query" := VString (js "BACKcountry") ]}.

Definition empty_query : gmap jsstring jsvalue :=
  {[ js "query" := VString [] ]}.

Definition upper_query : gmap jsstring jsvalue :=
  {[ js "query" := VString (js "MOUNTAIN VILLAGE") ]}.

Definition lower_query : gmap jsstring jsvalue :=
  {[ js "query" := VString (js "mountain village") ]}.

Definition bootdoctors_id : gmap jsstring jsvalue :=
  {[ js "rental_id" := VString (js "bootdoctors") ]}.

Definition capitalized_id : gmap jsstring jsvalue :=
  {[ js "rental_id" := VString (js "Bootdoctors") ]}.

Definition missing_id : gmap jsstring jsvalue :=
  {[ js "rental_id" := VString (js "does-not-exist") ]}.

Definition premium_need : gmap jsstring jsvalue :=
  {[ js "need" := VString (js "premium") ]}.

Definition nonsense_need : gmap jsstring jsvalue :=
  {[ js "need" := VString (js "nonsense-keyword") ]}.

Definition beginner_skier_need : gmap jsstring jsvalue :=
  {[ js "need" := VString (js "beginner skier") ]}.

Definition expert_rentals_need : gmap jsstring jsvalue :=
  {[ js "need" := VString (js "expert rentals") ]}.

(** A call of a tool the server does not have, and a search without its
    query. *)
Definition unknown_call : CallToolRequest.params :=
  request (js "delete_rental") (Some bootdoctors_id).

Definition search_without_query : CallToolRequest.params :=
  request (js "search_rentals") (Some ∅).

(** A shop whose id reads as a number, and a request for the number. *)
Definition numbered_shop : SkiRental.t := {|
  SkiRental.id := js "42";
  SkiRental.name := js "Shop 42";
  SkiRental.location := js "Placerville";
  SkiRental.address := js "42 Front St";
  SkiRental.phone := js "(970) 000-0042";
  SkiRental.website := None;
  SkiRental.description := js "Touring guides and lessons.";
  SkiRental.services := [js "Touring Guide"];
  SkiRental.rentalTypes := [js "Standard Skis"];
  SkiRental.priceRange := js "$300-$450/day";
  SkiRental.hours := None
|}.

Definition number_id : gmap jsstring jsvalue :=
  {[ js "rental_id" := VNumber (js "42") ]}.

Definition string_id_42 : gmap jsstring jsvalue :=
  {[ js "rental_id" := VString (js "42") ]}.

(** A second record under the id of [bootdoctors], later in the store. *)
Definition bootdoctors_annex : SkiRental.t := {|
  SkiRental.id := js "bootdoctors";
  SkiRental.name := js "Bootdoctors Annex";
  SkiRental.location := js "Telluride";
  SkiRental.address := js "1 Annex Way";
  SkiRental.phone := js "(970) 000-0001";
  SkiRental.website := None;
  SkiRental.description := js "Overflow storage.";
  SkiRental.services := [];
  SkiRental.rentalTypes := [];
  SkiRental.priceRange := js "$50-$100/day";
  SkiRental.hours := None
|}.

Definition mountain_sports_id : gmap jsstring jsvalue :=
  {[ js "rental_id" := VString (js "mountain-sports-telluride") ]}.

Definition name_query : gmap jsstring jsvalue :=
  {[ js "query" := VString (js "Jagged Edge Mountain Gear") ]}.

Definition boot_query : gmap jsstring jsvalue :=
  {[ js "query" := VString (js "Boot") ]}.

Definition boot_fitting_query : gmap jsstring jsvalue :=
  {[ js "query" := VString (js "BOOT FITTING") ]}.

Definition null_query : gmap jsstring jsvalue :=
  {[ js "query" := VNull ]}.

Definition query_with_extras : gmap jsstring jsvalue :=
  <[ js "limit" := VNumber (js "1") ]> (<[ js "need" := VString (js "premium") ]> boot_query).

Definition need_of (need : string) : gmap jsstring jsvalue :=
  {[ js "need" := VString (js need) ]}.

(** * Properties *)

(** ** Strings *)

Lemma starts_with_spec (q s : jsstring) :
  starts_with q s = true ↔ ∃ post, s = q ++ post.
Proof.
  revert s. induction q as [|a q IH]; intros s; simpl.
  - split; [intros _; by exists s | done].
  - destruct s as [|b s].
    + split; [done | intros [post Hpost]; discriminate].
    + rewrite andb_true_iff, N.eqb_eq, IH. split.
      * intros [-> [post ->]]. by exists post.
      * intros [post Hpost]. injection Hpost as -> ->. eauto.
Qed.

Lemma includes_spec (s q : jsstring) :
  includes s q = true ↔ occurs_in q s.
Proof.
  unfold occurs_in. induction s as [|a s IH]; simpl.
  - rewrite orb_false_r, starts_with_spec. split.
    + intros [post Hpost]. by exists [], post.
    + intros [pre [post Hs]]. destruct pre; [by exists post | discriminate].
  - rewrite orb_true_iff, starts_with_spec, IH. split.
    + intros [[post Hpost] | [pre [post Hs]]].
      * by exists [], post.
      * exists (a :: pre), post. by rewrite Hs.
    + intros [pre [post Hs]]. destruct pre as [|b pre].
      * left. by exists post.
      * right. injection Hs as -> ->. by exists pre, post.
Qed.

Lemma includes_empty (s : jsstring) : includes s [] = true.
Proof. destruct s; reflexivity. Qed.

Lemma occurs_in_length (q s : jsstring) :
  occurs_in q s → (length q ≤ length s)%nat.
Proof. intros [pre [post ->]]. rewrite !length_app. lia. Qed.

Lemma lower_unit_idempotent (c : N) : lower_unit (lower_unit c) = lower_unit c.
Proof.
  unfold lower_unit.
  destruct ((65 <=? c) && (c <=? 90)) eqn:Hc; [|by rewrite Hc].
  apply andb_true_iff in Hc as [H1 H2].
  apply N.leb_le in H1, H2.
  replace (c + 32 <=? 90) with false by (symmetry; apply N.leb_gt; lia).
  by rewrite andb_false_r.
Qed.

Lemma ascii_toLowerCase_idempotent (s : jsstring) :
  ascii_toLowerCase (ascii_toLowerCase s) = ascii_toLowerCase s.
Proof.
  unfold ascii_toLowerCase. rewrite List.map_map.
  apply List.map_ext. intros c. apply lower_unit_idempotent.
Qed.

Lemma existsb_elem_of {A : Type} (f : A → bool) (l : list A) :
  existsb f l = true ↔ ∃ x, x ∈ l ∧ f x = true.
Proof.
  rewrite existsb_exists. split; intros [x [Hx Hf]]; exists x; split; try done.
  - by apply list_elem_of_In.
  - by apply list_elem_of_In.
Qed.

(** ** The dispatcher *)

Section Dispatcher.

Variable toLowerCase : jsstring → jsstring.
Variable TypeError_message : fault → jsstring.

(** What the handler relies on from [String.prototype.toLowerCase]: on a
    string of ASCII code units it maps [A]-[Z] to [a]-[z] and keeps every
    other unit, and lower-casing a lower-cased string changes nothing. *)
Hypothesis toLowerCase_ascii :
  ∀ s, is_ascii s = true → toLowerCase s = ascii_toLowerCase s.
Hypothesis toLowerCase_idempotent :
  ∀ s, toLowerCase (toLowerCase s) = toLowerCase s.

Lemma try_block_list (store : list SkiRental.t) (args : option (gmap jsstring jsvalue)) :
  try_block toLowerCase TypeError_message store (js "list_ski_rentals") args =
    Normal (success (JSON_stringify (JArray (List.map to_json store)))).
Proof using Type. reflexivity. Qed.

Lemma try_block_details (store : list SkiRental.t) (args : option (gmap jsstring jsvalue)) :
  try_block toLowerCase TypeError_message store (js "get_rental_details") args =
    (rentalId ← get_property TypeError_message args (js "rental_id");
     match List.find (fun r => strict_equals (SkiRental.id r) rentalId) store with
     | None =>
         shown ← ToString TypeError_message rentalId;
         mret (failure (not_found_text shown))
     | Some rental => mret (success (JSON_stringify (to_json rental)))
     end).
Proof using Type. reflexivity. Qed.

Lemma try_block_search (store : list SkiRental.t) (args : option (gmap jsstring jsvalue)) :
  try_block toLowerCase TypeError_message store (js "search_rentals") args =
    (q ← get_property TypeError_message args (js "query");
     query ← call_toLowerCase toLowerCase TypeError_message (js "args.query") q;
     mret (success (JSON_stringify
            (JArray (List.map to_json (List.filter (search_matches toLowerCase query) store)))))).
Proof using Type. reflexivity. Qed.

Lemma try_block_recommend (store : list SkiRental.t) (args : option (gmap jsstring jsvalue)) :
  try_block toLowerCase TypeError_message store (js "get_rental_recommendations") args =
    (n ← get_property TypeError_message args (js "need");
     need ← call_toLowerCase toLowerCase TypeError_message (js "args.need") n;
     mret (success (JSON_stringify (response_json (recommend toLowerCase store need))))).
Proof using Type. reflexivity. Qed.

Lemma registered_cases (name : jsstring) :
  registered name ↔
    name = js "list_ski_rentals" ∨ name = js "get_rental_details"
    ∨ name = js "search_rentals" ∨ name = js "get_rental_recommendations".
Proof using Type.
  unfold registered. rewrite list_elem_of_In. simpl. intuition congruence.
Qed.

Lemma try_block_unknown (store : list SkiRental.t) (name : jsstring)
    (args : option (gmap jsstring jsvalue)) :
  ¬ registered name →
  try_block toLowerCase TypeError_message store name args =
    Normal (failure (js "Unknown tool: " ++ name)).
Proof using Type.
  rewrite registered_cases. intros Hname.
  unfold try_block, string_strict_eq.
  rewrite !bool_decide_eq_false_2 by (intros ->; apply Hname; auto).
  reflexivity.
Qed.

Lemma handler_search_string (store : list SkiRental.t) (args : gmap jsstring jsvalue)
    (q : jsstring) :
  args !! js "query" = Some (VString q) →
  CallTool_handler toLowerCase TypeError_message
      (request (js "search_rentals") (Some args)) store
    = (Normal (success (JSON_stringify (JArray (List.map to_json
         (List.filter (search_matches toLowerCase (toLowerCase q)) store))))), store).
Proof using Type.
  intros Hq. unfold CallTool_handler, request. cbn [CallToolRequest.name CallToolRequest.arguments].
  rewrite try_block_search. unfold get_property. rewrite Hq. reflexivity.
Qed.

Lemma search_matches_spec (query : jsstring) (r : SkiRental.t) :
  search_matches toLowerCase query r = true ↔ matches_query toLowerCase query r.
Proof using Type.
  unfold search_matches, matches_query.
  rewrite !orb_true_iff, !existsb_elem_of, !includes_spec.
  setoid_rewrite includes_spec. tauto.
Qed.

(** C1: [search_rentals] answers with the serialized records of the store
    that the callback keeps, in store order; the callback keeps a record
    exactly when the lower-cased query is a substring of its lower-cased
    name, location or description or of a lower-cased element of [services]
    or [rentalTypes]; with no such record the answer is the serialized empty
    array, and never an error. *)
Theorem search_rentals_returns_matches (store : list SkiRental.t)
    (args : gmap jsstring jsvalue) (q : jsstring) :
  args !! js "query" = Some (VString q) →
  ∃ results : list SkiRental.t,
    CallTool_handler toLowerCase TypeError_message
        (request (js "search_rentals") (Some args)) store
      = (Normal {| content := [text_block (JSON_stringify (JArray (List.map to_json results)))];
                   isError := None |}, store)
    ∧ results = List.filter (search_matches toLowerCase (toLowerCase q)) store
    ∧ (∀ r, search_matches toLowerCase (toLowerCase q) r = true
            ↔ matches_query toLowerCase (toLowerCase q) r)
    ∧ sublist results store
    ∧ (∀ r, r ∈ results ↔ r ∈ store ∧ matches_query toLowerCase (toLowerCase q) r)
    ∧ ((∀ r, r ∈ store → ¬ matches_query toLowerCase (toLowerCase q) r) →
       results = [] ∧ JSON_stringify (JArray (List.map to_json results)) = js "[]").
Proof using Type.
  intros Hq.
  exists (List.filter (search_matches toLowerCase (toLowerCase q)) store).
  split; [by apply handler_search_string|].
  split; [done|].
  split; [apply search_matches_spec|].
  split.
  { clear. induction store as [|r store IH]; simpl; [constructor|].
    destruct (search_matches _ _ r); by constructor. }
  split.
  { intros r. rewrite list_elem_of_In, filter_In, <- list_elem_of_In.
    by rewrite search_matches_spec. }
  intros Hnone.
  assert (List.filter (search_matches toLowerCase (toLowerCase q)) store = []) as ->.
  { clear Hq. induction store as [|r store IH]; simpl; [done|].
    destruct (search_matches _ _ r) eqn:Hr.
    - exfalso. apply (Hnone r); [by left | by apply search_matches_spec].
    - apply IH. intros r' Hr'. apply Hnone. by right. }
  done.
Qed.

(** C7: the empty query keeps every record: [search_rentals] with [query]
    the empty string answers with the whole store. *)
Theorem search_rentals_empty_query (store : list SkiRental.t)
    (args : gmap jsstring jsvalue) :
  args !! js "query" = Some (VString []) →
  CallTool_handler toLowerCase TypeError_message
      (request (js "search_rentals") (Some args)) store
    = (Normal {| content := [text_block (JSON_stringify (JArray (List.map to_json store)))];
                 isError := None |}, store)
  ∧ List.filter (search_matches toLowerCase (toLowerCase [])) store = store
  ∧ (∀ s, occurs_in [] s).
Proof using toLowerCase_ascii.
  intros Hq.
  assert (toLowerCase [] = []) as Hlow by (by rewrite toLowerCase_ascii).
  assert (List.filter (search_matches toLowerCase []) store = store) as Hall.
  { induction store as [|r store IH]; simpl; [done|].
    unfold search_matches at 1. rewrite includes_empty. simpl. by rewrite IH. }
  split; [|split].
  - rewrite (handler_search_string store args [] Hq), Hlow, Hall. reflexivity.
  - by rewrite Hlow.
  - intros s. by exists [], s.
Qed.

(** C8: the query is compared case-insensitively: a query and its
    lower-casing get the same answer, and so do ["MOUNTAIN VILLAGE"] and
    ["mountain village"]. *)
Theorem search_rentals_case_insensitive (store : list SkiRental.t)
    (args args' : gmap jsstring jsvalue) (q q' : jsstring) :
  args !! js "query" = Some (VString q) →
  args' !! js "query" = Some (VString q') →
  q' = toLowerCase q ∨ (q = js "MOUNTAIN VILLAGE" ∧ q' = js "mountain village") →
  CallTool_handler toLowerCase TypeError_message
      (request (js "search_rentals") (Some args)) store
  = CallTool_handler toLowerCase TypeError_message
      (request (js "search_rentals") (Some args')) store.
Proof using toLowerCase_ascii toLowerCase_idempotent.
  intros Hq Hq' Hcase.
  rewrite (handler_search_string store args q Hq).
  rewrite (handler_search_string store args' q' Hq').
  assert (toLowerCase q' = toLowerCase q) as ->; [|done].
  destruct Hcase as [-> | [-> ->]].
  - apply toLowerCase_idempotent.
  - by rewrite !toLowerCase_ascii.
Qed.

Lemma find_strict_equals_string (store : list SkiRental.t) (rid : jsstring) :
  match List.find (fun r => strict_equals (SkiRental.id r) (VString rid)) store with
  | Some rental => rental ∈ store ∧ SkiRental.id rental = rid
  | None => ∀ r, r ∈ store → SkiRental.id r ≠ rid
  end.
Proof using Type.
  destruct (List.find _ store) as [rental|] eqn:Hfind.
  - apply find_some in Hfind as [Hin Heq]. split; [by apply list_elem_of_In|].
    by apply bool_decide_eq_true in Heq.
  - intros r Hr Hid. apply list_elem_of_In in Hr.
    pose proof (find_none _ _ Hfind r Hr) as Hno. simpl in Hno.
    by apply bool_decide_eq_false in Hno.
Qed.

Lemma find_never {A : Type} (l : list A) : List.find (fun _ => false) l = None.
Proof using Type. induction l; done. Qed.

Lemma handler_details_string (store : list SkiRental.t) (args : gmap jsstring jsvalue)
    (rid : jsstring) :
  args !! js "rental_id" = Some (VString rid) →
  CallTool_handler toLowerCase TypeError_message
      (request (js "get_rental_details") (Some args)) store
    = (Normal match List.find (fun r => strict_equals (SkiRental.id r) (VString rid)) store with
              | Some rental => success (JSON_stringify (to_json rental))
              | None => failure (not_found_text rid)
              end, store).
Proof using Type.
  intros Hid. unfold CallTool_handler, request.
  cbn [CallToolRequest.name CallToolRequest.arguments].
  rewrite try_block_details. unfold get_property. rewrite Hid. simpl.
  by destruct (List.find _ store).
Qed.

(** C2: for an id that some record of the store has, [get_rental_details]
    answers without error flag with the serialization of a record of the
    store whose [id] member is the requested id; the ids are compared as
    they are (code unit by code unit), so an id that no record has exactly
    gets an error-flagged answer. *)
Theorem get_rental_details_returns_record (store : list SkiRental.t)
    (args : gmap jsstring jsvalue) (rid : jsstring) :
  args !! js "rental_id" = Some (VString rid) →
  ((∃ r, r ∈ store ∧ SkiRental.id r = rid) →
   ∃ rental, rental ∈ store ∧ SkiRental.id rental = rid
     ∧ CallTool_handler toLowerCase TypeError_message
           (request (js "get_rental_details") (Some args)) store
         = (Normal {| content := [text_block (JSON_stringify (to_json rental))];
                      isError := None |}, store)
     ∧ json_field (js "id") (to_json rental) = Some (JString rid))
  ∧ ((∀ r, r ∈ store → SkiRental.id r ≠ rid) →
     ∃ result, CallTool_handler toLowerCase TypeError_message
                   (request (js "get_rental_details") (Some args)) store
                 = (Normal result, store)
               ∧ isError result = Some true).
Proof using Type.
  intros Hid. rewrite (handler_details_string store args rid Hid).
  pose proof (find_strict_equals_string store rid) as Hfind.
  destruct (List.find _ store) as [rental|]; split.
  - intros _. destruct Hfind as [Hin Heq]. exists rental.
    repeat split; try done. by rewrite <- Heq.
  - intros Hnone. destruct Hfind as [Hin Heq]. by destruct (Hnone rental).
  - intros [r [Hr Heq]]. by destruct (Hfind r).
  - intros _. by eexists.
Qed.

(** C3 (amended): for an id string that no record of the store has,
    [get_rental_details] does not throw; it answers with the error flag set
    and one text block reading [Ski rental shop with ID "<id>" not found.],
    the requested id in place of [<id>]. *)
Theorem get_rental_details_not_found (store : list SkiRental.t)
    (args : gmap jsstring jsvalue) (rid : jsstring) :
  args !! js "rental_id" = Some (VString rid) →
  (∀ r, r ∈ store → SkiRental.id r ≠ rid) →
  CallTool_handler toLowerCase TypeError_message
      (request (js "get_rental_details") (Some args)) store
    = (Normal {| content :=
                   [ {| type := js "text";
                        text := js "Ski rental shop with ID " ++ [DQUOTE] ++ rid
                                  ++ [DQUOTE] ++ js " not found." |} ];
                 isError := Some true |}, store).
Proof using Type.
  intros Hid Hnone. rewrite (handler_details_string store args rid Hid).
  pose proof (find_strict_equals_string store rid) as Hfind.
  destruct (List.find _ store) as [rental|]; [|done].
  destruct Hfind as [Hin Heq]. by destruct (Hnone rental).
Qed.

Lemma required_arguments_cases (name k : jsstring) :
  k ∈ required_arguments name →
  (name = js "get_rental_details" ∧ k = js "rental_id")
  ∨ (name = js "search_rentals" ∧ k = js "query")
  ∨ (name = js "get_rental_recommendations" ∧ k = js "need").
Proof using Type.
  unfold required_arguments, tools. cbn [List.find Tool.name Tool.required].
  unfold string_strict_eq.
  repeat (case_bool_decide; subst; cbn [default from_option id Tool.required]);
    rewrite ?list_elem_of_singleton, ?elem_of_nil; intros Hk; [by destruct Hk | subst; auto ..| by destruct Hk].
Qed.

(** C4: a call never throws: the handler always completes normally with a
    result.  For a tool name that is not in the registry the result is
    error-flagged and names the tool; when a required argument of the tool
    is omitted the result is error-flagged, with the not-found text for
    [undefined] or with the message of the fault; and whatever the [try]
    block throws is answered as an error-flagged result carrying its
    message. *)
Theorem dispatcher_contains_errors (req : CallToolRequest.params)
    (store : list SkiRental.t) :
  ∃ result : CallToolResult,
    CallTool_handler toLowerCase TypeError_message req store = (Normal result, store)
    ∧ (¬ registered (CallToolRequest.name req) →
       result = {| content := [text_block (js "Unknown tool: " ++ CallToolRequest.name req)];
                   isError := Some true |})
    ∧ (∀ k, k ∈ required_arguments (CallToolRequest.name req) →
            omitted k (CallToolRequest.arguments req) →
            isError result = Some true
            ∧ (content result = [text_block (not_found_text (js "undefined"))]
               ∨ ∃ f, content result = [text_block (js "Error: " ++ TypeError_message f)]))
    ∧ (∀ e, try_block toLowerCase TypeError_message store
                (CallToolRequest.name req) (CallToolRequest.arguments req) = Throw e →
            result = {| content := [text_block (js "Error: " ++ error_text e)];
                        isError := Some true |}).
Proof using Type.
  destruct req as [name args]. unfold CallTool_handler.
  cbn [CallToolRequest.name CallToolRequest.arguments].
  destruct (try_block toLowerCase TypeError_message store name args) as [r|e] eqn:Htry.
  - exists r. split; [done|]. split; [|split].
    + intros Hname. rewrite try_block_unknown in Htry by done.
      by injection Htry as <-.
    + intros k Hk Hom.
      apply required_arguments_cases in Hk as [[-> ->] | [[-> ->] | [-> ->]]].
      * rewrite try_block_details in Htry. destruct args as [o|]; [|done].
        simpl in Hom, Htry. rewrite Hom in Htry. simpl in Htry.
        rewrite find_never in Htry. injection Htry as <-. split; [done | by left].
      * rewrite try_block_search in Htry. destruct args as [o|]; [|done].
        simpl in Hom, Htry. by rewrite Hom in Htry.
      * rewrite try_block_recommend in Htry. destruct args as [o|]; [|done].
        simpl in Hom, Htry. by rewrite Hom in Htry.
    + done.
  - eexists. split; [done|]. split; [|split].
    + intros Hname. rewrite try_block_unknown in Htry by done. done.
    + intros k Hk Hom. split; [done|]. right.
      apply required_arguments_cases in Hk as [[-> ->] | [[-> ->] | [-> ->]]].
      * rewrite try_block_details in Htry. destruct args as [o|].
        { simpl in Hom, Htry. rewrite Hom in Htry. simpl in Htry.
          by rewrite find_never in Htry. }
        injection Htry as <-. by eexists.
      * rewrite try_block_search in Htry. destruct args as [o|].
        { simpl in Hom, Htry. rewrite Hom in Htry. injection Htry as <-. by eexists. }
        injection Htry as <-. by eexists.
      * rewrite try_block_recommend in Htry. destruct args as [o|].
        { simpl in Hom, Htry. rewrite Hom in Htry. injection Htry as <-. by eexists. }
        injection Htry as <-. by eexists.
    + intros e' [= <-]. done.
Qed.

Lemma handler_recommend_string (store : list SkiRental.t) (args : gmap jsstring jsvalue)
    (need : jsstring) :
  args !! js "need" = Some (VString need) →
  CallTool_handler toLowerCase TypeError_message
      (request (js "get_rental_recommendations") (Some args)) store
    = (Normal (success (JSON_stringify
         (response_json (recommend toLowerCase store (toLowerCase need))))), store).
Proof using Type.
  intros Hneed. unfold CallTool_handler, request.
  cbn [CallToolRequest.name CallToolRequest.arguments].
  rewrite try_block_recommend. unfold get_property. rewrite Hneed. reflexivity.
Qed.

Lemma recognized_cases (n : jsstring) :
  n ∈ recognized_keywords ↔
    n = js "beginner" ∨ n = js "expert" ∨ n = js "advanced" ∨ n = js "backcountry"
    ∨ n = js "touring" ∨ n = js "delivery" ∨ n = js "budget" ∨ n = js "affordable"
    ∨ n = js "premium" ∨ n = js "luxury" ∨ n = js "family" ∨ n = js "kids".
Proof using Type.
  unfold recognized_keywords. rewrite !elem_of_cons, elem_of_nil. tauto.
Qed.

Lemma recommend_default (store : list SkiRental.t) (n : jsstring) :
  n ∉ recognized_keywords → recommend toLowerCase store n = all_records store.
Proof using Type.
  rewrite recognized_cases. intros Hn.
  unfold recommend, string_strict_eq.
  rewrite !bool_decide_eq_false_2 by (intros ->; apply Hn; tauto).
  reflexivity.
Qed.

Lemma recommend_keyword_explanation (store : list SkiRental.t) (n : jsstring) :
  n ∈ recognized_keywords →
  explanation (recommend toLowerCase store n) ≠ generic_explanation.
Proof using Type.
  rewrite recognized_cases. intros Hn Hexp.
  repeat (destruct Hn as [-> | Hn]; [by vm_compute in Hexp|]).
  subst n. by vm_compute in Hexp.
Qed.

Lemma keywords_not_nested (k n : jsstring) :
  k ∈ recognized_keywords → n ∈ recognized_keywords → occurs_in k n → n = k.
Proof using Type.
  intros Hk Hn Hocc. apply includes_spec in Hocc.
  assert (forallb (fun n => forallb (fun k =>
            implb (includes n k) (string_strict_eq n k)) recognized_keywords)
            recognized_keywords = true) as Hall by (vm_compute; reflexivity).
  rewrite forallb_forall in Hall. apply list_elem_of_In in Hk, Hn.
  specialize (Hall n Hn). rewrite forallb_forall in Hall.
  specialize (Hall k Hk). rewrite Hocc in Hall. simpl in Hall.
  by apply bool_decide_eq_true in Hall.
Qed.

Lemma premium_filter (store : list SkiRental.t) (r : SkiRental.t) :
  r ∈ List.filter (fun r =>
        string_strict_eq (SkiRental.id r) (js "bootdoctors")
        || string_strict_eq (SkiRental.id r) (js "telluride-ski-rental-delivery")
        || string_strict_eq (SkiRental.id r) (js "telluride-sports")) store
  ↔ r ∈ store ∧ SkiRental.id r ∈ premium_ids.
Proof using Type.
  rewrite list_elem_of_In, filter_In, <- list_elem_of_In.
  unfold premium_ids, string_strict_eq.
  rewrite !orb_true_iff, !bool_decide_eq_true, !elem_of_cons, elem_of_nil. tauto.
Qed.

(** C5: for the need ["premium"] or ["luxury"] the answer over the catalog
    holds exactly three records, those with the ids [bootdoctors],
    [telluride-ski-rental-delivery] and [telluride-sports] (in store order),
    and the premium explanation; over any store a record is recommended
    exactly when its id is one of the three, whatever its tags are. *)
Theorem recommend_premium (args : gmap jsstring jsvalue) (need : jsstring) :
  args !! js "need" = Some (VString need) →
  need = js "premium" ∨ need = js "luxury" →
  CallTool_handler toLowerCase TypeError_message
      (request (js "get_rental_recommendations") (Some args)) skiRentals
    = (Normal {| content := [text_block (JSON_stringify (JObject
         [ (js "explanation", JString (js "These shops offer premium equipment and high-end services for the best skiing experience."));
           (js "recommendations", JArray (List.map to_json
              [telluride_sports; bootdoctors; telluride_ski_rental_delivery])) ]))];
                 isError := None |}, skiRentals)
  ∧ List.map SkiRental.id [telluride_sports; bootdoctors; telluride_ski_rental_delivery]
      ≡ₚ premium_ids
  ∧ (∀ store r,
       r ∈ recommendations (recommend toLowerCase store (toLowerCase need))
       ↔ r ∈ store ∧ SkiRental.id r ∈ premium_ids)
  ∧ (∀ store,
       explanation (recommend toLowerCase store (toLowerCase need))
       = js "These shops offer premium equipment and high-end services for the best skiing experience.").
Proof using toLowerCase_ascii.
  intros Hneed Hcase.
  rewrite (handler_recommend_string skiRentals args need Hneed).
  assert (toLowerCase need = need) as ->.
  { destruct Hcase as [-> | ->]; by rewrite toLowerCase_ascii. }
  split; [|split; [|split]].
  - by destruct Hcase as [-> | ->].
  - unfold premium_ids. simpl.
    change (js "telluride-sports" :: [js "bootdoctors"; js "telluride-ski-rental-delivery"]
            ≡ₚ [js "bootdoctors"; js "telluride-ski-rental-delivery"] ++ [js "telluride-sports"]).
    apply Permutation_cons_append.
  - intros store r.
    destruct Hcase as [-> | ->]; apply premium_filter.
  - intros store. by destruct Hcase as [-> | ->].
Qed.

(** C6: a need whose lower-casing is none of the case labels gets the whole
    store, in store order, with the generic explanation. *)
Theorem recommend_unrecognized (store : list SkiRental.t)
    (args : gmap jsstring jsvalue) (need : jsstring) :
  args !! js "need" = Some (VString need) →
  toLowerCase need ∉ recognized_keywords →
  CallTool_handler toLowerCase TypeError_message
      (request (js "get_rental_recommendations") (Some args)) store
    = (Normal {| content := [text_block (JSON_stringify (JObject
         [ (js "explanation", JString (js "Here are all available ski rental options in the Telluride area."));
           (js "recommendations", JArray (List.map to_json store)) ]))];
                 isError := None |}, store)
  ∧ recommendations (recommend toLowerCase store (toLowerCase need)) = store.
Proof using Type.
  intros Hneed Hkw.
  rewrite (handler_recommend_string store args need Hneed).
  by rewrite recommend_default.
Qed.

(** C10: the need is classified by equality of its lower-casing with a case
    label: a need whose lower-casing contains a label without being equal to
    it gets the default answer, the whole store with the generic
    explanation; and the generic explanation is given exactly for the
    lower-cased needs that equal no label. *)
Theorem recommend_exact_keyword_match (store : list SkiRental.t)
    (args : gmap jsstring jsvalue) (need k : jsstring) :
  args !! js "need" = Some (VString need) →
  k ∈ recognized_keywords →
  occurs_in k (toLowerCase need) →
  toLowerCase need ≠ k →
  CallTool_handler toLowerCase TypeError_message
      (request (js "get_rental_recommendations") (Some args)) store
    = (Normal (success (JSON_stringify (response_json (all_records store)))), store)
  ∧ recommend toLowerCase store (toLowerCase need) = all_records store
  ∧ (∀ n, explanation (recommend toLowerCase store n) = generic_explanation
          ↔ n ∉ recognized_keywords).
Proof using Type.
  intros Hneed Hk Hocc Hne.
  assert (toLowerCase need ∉ recognized_keywords) as Hkw.
  { intros Hn. apply Hne. by apply keywords_not_nested. }
  rewrite (handler_recommend_string store args need Hneed).
  rewrite recommend_default by done.
  split; [done|]. split; [done|].
  intros n. split.
  - intros Hexp Hn. by apply (recommend_keyword_explanation store n).
  - intros Hn. by rewrite recommend_default.
Qed.

End Dispatcher.

(** ** The handler run on the catalog

    The ASCII lower-casing and the V8 messages stand for the engine. *)

Lemma no_record_has_missing_id (r : SkiRental.t) :
  r ∈ skiRentals → SkiRental.id r ≠ js "does-not-exist".
Proof.
  unfold skiRentals. rewrite !elem_of_cons, elem_of_nil.
  intros Hr Hid. repeat (destruct Hr as [-> | Hr]; [by vm_compute in Hid|]). done.
Qed.

Lemma search_rentals_returns_matches_witness :
  backcountry_query !! js "query" = Some (VString (js "BACKcountry"))
  ∧ ∃ results,
      CallTool_handler ascii_toLowerCase v8_message
          (request (js "search_rentals") (Some backcountry_query)) skiRentals
        = (Normal {| content := [text_block (JSON_stringify (JArray (List.map to_json results)))];
                     isError := None |}, skiRentals)
      ∧ results = [jagged_edge].
Proof.
  split; [reflexivity|].
  destruct (search_rentals_returns_matches ascii_toLowerCase v8_message skiRentals
              backcountry_query (js "BACKcountry")) as (results & Hcall & Hres & _);
    [reflexivity|].
  exists results. split; [exact Hcall|]. rewrite Hres. vm_compute. reflexivity.
Defined.

Lemma search_rentals_empty_query_witness :
  empty_query !! js "query" = Some (VString [])
  ∧ CallTool_handler ascii_toLowerCase v8_message
        (request (js "search_rentals") (Some empty_query)) skiRentals
      = (Normal {| content := [text_block (JSON_stringify (JArray (List.map to_json skiRentals)))];
                   isError := None |}, skiRentals).
Proof.
  split; [reflexivity|].
  apply (search_rentals_empty_query ascii_toLowerCase v8_message
           (fun s _ => eq_refl) skiRentals empty_query).
  reflexivity.
Defined.

Lemma search_rentals_case_insensitive_witness :
  upper_query !! js "query" = Some (VString (js "MOUNTAIN VILLAGE"))
  ∧ lower_query !! js "query" = Some (VString (js "mountain village"))
  ∧ CallTool_handler ascii_toLowerCase v8_message
        (request (js "search_rentals") (Some upper_query)) skiRentals
    = CallTool_handler ascii_toLowerCase v8_message
        (request (js "search_rentals") (Some lower_query)) skiRentals.
Proof.
  split; [reflexivity|]. split; [reflexivity|].
  apply (search_rentals_case_insensitive ascii_toLowerCase v8_message
           (fun s _ => eq_refl) ascii_toLowerCase_idempotent skiRentals
           upper_query lower_query (js "MOUNTAIN VILLAGE") (js "mountain village")).
  - reflexivity.
  - reflexivity.
  - right. split; reflexivity.
Defined.

Lemma get_rental_details_returns_record_witness :
  bootdoctors_id !! js "rental_id" = Some (VString (js "bootdoctors"))
  ∧ (∃ r, r ∈ skiRentals ∧ SkiRental.id r = js "bootdoctors")
  ∧ ∃ rental, rental ∈ skiRentals ∧ SkiRental.id rental = js "bootdoctors"
      ∧ CallTool_handler ascii_toLowerCase v8_message
            (request (js "get_rental_details") (Some bootdoctors_id)) skiRentals
          = (Normal {| content := [text_block (JSON_stringify (to_json rental))];
                       isError := None |}, skiRentals)
      ∧ json_field (js "id") (to_json rental) = Some (JString (js "bootdoctors")).
Proof.
  assert (∃ r, r ∈ skiRentals ∧ SkiRental.id r = js "bootdoctors") as Hsome.
  { exists bootdoctors. split; [|reflexivity].
    unfold skiRentals. apply list_elem_of_further, list_elem_of_here. }
  split; [reflexivity|]. split; [exact Hsome|].
  apply (get_rental_details_returns_record ascii_toLowerCase v8_message skiRentals
           bootdoctors_id (js "bootdoctors")); [reflexivity | exact Hsome].
Defined.

Lemma get_rental_details_not_found_witness :
  missing_id !! js "rental_id" = Some (VString (js "does-not-exist"))
  ∧ (∀ r, r ∈ skiRentals → SkiRental.id r ≠ js "does-not-exist")
  ∧ CallTool_handler ascii_toLowerCase v8_message
        (request (js "get_rental_details") (Some missing_id)) skiRentals
      = (Normal {| content :=
                     [ {| type := js "text";
                          text := js "Ski rental shop with ID " ++ [DQUOTE]
                                    ++ js "does-not-exist" ++ [DQUOTE] ++ js " not found." |} ];
                   isError := Some true |}, skiRentals).
Proof.
  split; [reflexivity|]. split; [exact no_record_has_missing_id|].
  apply (get_rental_details_not_found ascii_toLowerCase v8_message skiRentals
           missing_id (js "does-not-exist")); [reflexivity | exact no_record_has_missing_id].
Defined.

Lemma dispatcher_contains_errors_witness :
  ¬ registered (CallToolRequest.name unknown_call)
  ∧ ∃ result,
      CallTool_handler ascii_toLowerCase v8_message unknown_call skiRentals
        = (Normal result, skiRentals)
      ∧ result = {| content := [text_block (js "Unknown tool: delete_rental")];
                    isError := Some true |}.
Proof.
  assert (¬ registered (CallToolRequest.name unknown_call)) as Hname.
  { unfold registered. rewrite list_elem_of_In. vm_compute.
    intros Hin. repeat (destruct Hin as [Hin | Hin]; [discriminate Hin|]). exact Hin. }
  split; [exact Hname|].
  destruct (dispatcher_contains_errors ascii_toLowerCase v8_message unknown_call skiRentals)
    as (result & Hcall & Hunknown & _).
  exists result. split; [exact Hcall|]. exact (Hunknown Hname).
Defined.

(** A search whose [query] is omitted, run on the catalog: the fault of
    calling [toLowerCase] on [undefined] comes back as an error-flagged
    result. *)
Example search_without_query_contained :
  CallTool_handler ascii_toLowerCase v8_message search_without_query skiRentals
  = (Normal (failure (js "Error: Cannot read properties of undefined (reading 'toLowerCase')")),
     skiRentals).
Proof. vm_compute. reflexivity. Qed.

(** C3 as the specification words it fails on the catalog: no record has
    the id [does-not-exist], and the text of the answer is not
    [Record with id "does-not-exist" not found.]. *)
Lemma get_rental_details_spec_text_fails :
  ¬ ((∀ r, r ∈ skiRentals → SkiRental.id r ≠ js "does-not-exist") →
     fst (CallTool_handler ascii_toLowerCase v8_message
            (request (js "get_rental_details") (Some missing_id)) skiRentals)
     = Normal {| content := [text_block (spec_not_found_text (js "does-not-exist"))];
                 isError := Some true |}).
Proof.
  intros Hclaim. specialize (Hclaim no_record_has_missing_id).
  vm_compute in Hclaim. discriminate Hclaim.
Qed.

(** The lookup of [get_rental_details] is case-sensitive: [Bootdoctors] is
    not the id [bootdoctors]. *)
Example get_rental_details_case_sensitive :
  fst (CallTool_handler ascii_toLowerCase v8_message
         (request (js "get_rental_details") (Some capitalized_id)) skiRentals)
  = Normal (failure (not_found_text (js "Bootdoctors"))).
Proof. vm_compute. reflexivity. Qed.

Lemma recommend_premium_witness :
  premium_need !! js "need" = Some (VString (js "premium"))
  ∧ CallTool_handler ascii_toLowerCase v8_message
        (request (js "get_rental_recommendations") (Some premium_need)) skiRentals
      = (Normal {| content := [text_block (JSON_stringify (JObject
           [ (js "explanation", JString (js "These shops offer premium equipment and high-end services for the best skiing experience."));
             (js "recommendations", JArray (List.map to_json
                [telluride_sports; bootdoctors; telluride_ski_rental_delivery])) ]))];
                   isError := None |}, skiRentals).
Proof.
  split; [reflexivity|].
  apply (recommend_premium ascii_toLowerCase v8_message (fun s _ => eq_refl)
           premium_need (js "premium")); [reflexivity | left; reflexivity].
Defined.

Lemma nonsense_not_recognized :
  ascii_toLowerCase (js "nonsense-keyword") ∉ recognized_keywords.
Proof.
  unfold recognized_keywords. rewrite !elem_of_cons, elem_of_nil.
  intros Hin. repeat (destruct Hin as [Hin | Hin]; [by vm_compute in Hin|]). done.
Qed.

Lemma recommend_unrecognized_witness :
  nonsense_need !! js "need" = Some (VString (js "nonsense-keyword"))
  ∧ (ascii_toLowerCase (js "nonsense-keyword") ∉ recognized_keywords)
  ∧ CallTool_handler ascii_toLowerCase v8_message
        (request (js "get_rental_recommendations") (Some nonsense_need)) skiRentals
      = (Normal {| content := [text_block (JSON_stringify (JObject
           [ (js "explanation", JString (js "Here are all available ski rental options in the Telluride area."));
             (js "recommendations", JArray (List.map to_json skiRentals)) ]))];
                   isError := None |}, skiRentals).
Proof.
  split; [reflexivity|]. split; [exact nonsense_not_recognized|].
  apply (recommend_unrecognized ascii_toLowerCase v8_message skiRentals
           nonsense_need (js "nonsense-keyword")); [reflexivity | exact nonsense_not_recognized].
Defined.

Lemma recommend_exact_keyword_match_witness :
  beginner_skier_need !! js "need" = Some (VString (js "beginner skier"))
  ∧ js "beginner" ∈ recognized_keywords
  ∧ occurs_in (js "beginner") (ascii_toLowerCase (js "beginner skier"))
  ∧ ascii_toLowerCase (js "beginner skier") ≠ js "beginner"
  ∧ recommend ascii_toLowerCase skiRentals (ascii_toLowerCase (js "beginner skier"))
    = all_records skiRentals.
Proof.
  assert (js "beginner" ∈ recognized_keywords) as Hk by apply list_elem_of_here.
  assert (occurs_in (js "beginner") (ascii_toLowerCase (js "beginner skier"))) as Hocc.
  { exists [], (js " skier"). reflexivity. }
  assert (ascii_toLowerCase (js "beginner skier") ≠ js "beginner") as Hne.
  { intros Heq. vm_compute in Heq. discriminate Heq. }
  split; [reflexivity|]. split; [exact Hk|]. split; [exact Hocc|]. split; [exact Hne|].
  apply (recommend_exact_keyword_match ascii_toLowerCase v8_message skiRentals
           beginner_skier_need (js "beginner skier") (js "beginner"));
    [reflexivity | exact Hk | exact Hocc | exact Hne].
Defined.

(** The other need of the same kind, ["expert rentals"], run on the catalog. *)
Example recommend_expert_rentals_default :
  fst (CallTool_handler ascii_toLowerCase v8_message
         (request (js "get_rental_recommendations") (Some expert_rentals_need)) skiRentals)
  = Normal (success (JSON_stringify (response_json (all_records skiRentals)))).
Proof. vm_compute. reflexivity. Qed.

(** * The rest of the handler

    The branches and argument shapes that the properties above leave out:
    arguments of another type than string, duplicate ids, the other cases of
    the recommendation switch, and how the registry and the dispatch agree. *)

Section Coverage.

Variable toLowerCase : jsstring → jsstring.
Variable TypeError_message : fault → jsstring.

#[local] Arguments js : simpl never.

Lemma strict_equals_non_string (store : list SkiRental.t) (v : jsvalue) :
  (∀ s, v ≠ VString s) →
  List.find (fun r => strict_equals (SkiRental.id r) v) store = None.
Proof using Type.
  intros Hv. destruct v as [| |b|n|s|sh]; try apply find_never. by destruct (Hv s).
Qed.

Lemma handler_details_value (store : list SkiRental.t) (o : gmap jsstring jsvalue)
    (v : jsvalue) :
  o !! js "rental_id" = Some v →
  CallTool_handler toLowerCase TypeError_message
      (request (js "get_rental_details") (Some o)) store
    = (Normal match List.find (fun r => strict_equals (SkiRental.id r) v) store with
              | Some rental => success (JSON_stringify (to_json rental))
              | None =>
                  match ToString TypeError_message v with
                  | Normal shown => failure (not_found_text shown)
                  | Throw e => failure (js "Error: " ++ error_text e)
                  end
              end, store).
Proof using Type.
  intros Hv. unfold CallTool_handler, request.
  cbn [CallToolRequest.name CallToolRequest.arguments].
  rewrite try_block_details. unfold get_property. rewrite Hv. simpl.
  destruct (List.find _ store); [done|].
  by destruct (ToString TypeError_message v).
Qed.

Lemma handler_lowered_argument (store : list SkiRental.t) (name k : jsstring)
    (args : option (gmap jsstring jsvalue)) :
  (name = js "search_rentals" ∧ k = js "query")
  ∨ (name = js "get_rental_recommendations" ∧ k = js "need") →
  (∃ o q, args = Some o ∧ o !! k = Some (VString q)
          ∧ ∃ t, CallTool_handler toLowerCase TypeError_message (request name args) store
                 = (Normal (success t), store))
  ∨ ((∀ o q, args = Some o → o !! k ≠ Some (VString q))
     ∧ ∃ f, CallTool_handler toLowerCase TypeError_message (request name args) store
            = (Normal (failure (js "Error: " ++ TypeError_message f)), store)).
Proof using Type.
  intros Htool. unfold CallTool_handler, request.
  cbn [CallToolRequest.name CallToolRequest.arguments].
  assert (∀ o q, Some o = @None (gmap jsstring jsvalue) → o !! k ≠ Some (VString q))
    as Hnone by (intros ? ? [=]).
  destruct Htool as [[-> ->] | [-> ->]].
  - rewrite try_block_search. destruct args as [o|]; simpl; [|right; split; [done | by eexists]].
    destruct (o !! js "query") as [[| |b|n|s|sh]|] eqn:Hq; simpl;
      try (right; split; [intros ? ? [= <-]; congruence | by eexists]).
    left. exists o, s. repeat split; try done. by eexists.
  - rewrite try_block_recommend. destruct args as [o|]; simpl; [|right; split; [done | by eexists]].
    destruct (o !! js "need") as [[| |b|n|s|sh]|] eqn:Hq; simpl;
      try (right; split; [intros ? ? [= <-]; congruence | by eexists]).
    left. exists o, s. repeat split; try done. by eexists.
Qed.

(** X1: every call completes normally with exactly one content block of
    type [text]; the error flag is either absent or [true]; the store is
    the one the call started with. *)
Theorem handler_result_shape (req : CallToolRequest.params) (store : list SkiRental.t) :
  ∃ (t : jsstring) (flag : option bool),
    CallTool_handler toLowerCase TypeError_message req store
      = (Normal {| content := [ {| type := js "text"; text := t |} ]; isError := flag |},
         store)
    ∧ (flag = None ∨ flag = Some true).
Proof using Type.
  destruct req as [name args].
  destruct (decide (name ∈ List.map Tool.name tools)) as [Hreg | Hreg].
  - apply registered_cases in Hreg as [-> | [-> | [-> | ->]]].
    + eexists _, _. unfold CallTool_handler. cbn [CallToolRequest.name CallToolRequest.arguments].
      rewrite try_block_list. split; [reflexivity | by left].
    + destruct args as [o|].
      * pose proof (handler_details_value store o (default VUndefined (o !! js "rental_id"))) as Hd.
        unfold CallTool_handler, request in *.
        cbn [CallToolRequest.name CallToolRequest.arguments] in *.
        rewrite try_block_details in *. unfold get_property. simpl.
        destruct (List.find _ store).
        { eexists _, _. split; [reflexivity | by left]. }
        destruct (ToString TypeError_message (default VUndefined (o !! js "rental_id")));
          eexists _, _; (split; [reflexivity | by right]).
      * eexists _, _. split; [reflexivity | by right].
    + destruct (handler_lowered_argument store (js "search_rentals") (js "query") args)
        as [(o & q & _ & _ & t & Ht) | [_ [f Hf]]]; [by left | |];
        eexists _, _; (split; [eassumption|]); [by left | by right].
    + destruct (handler_lowered_argument store (js "get_rental_recommendations") (js "need") args)
        as [(o & q & _ & _ & t & Ht) | [_ [f Hf]]]; [by right | |];
        eexists _, _; (split; [eassumption|]); [by left | by right].
  - eexists _, _. unfold CallTool_handler. cbn [CallToolRequest.name CallToolRequest.arguments].
    rewrite try_block_unknown by done. split; [reflexivity | by right].
Qed.

(** X2: the dispatch and the registry agree: a call is answered with the
    error-flagged text [Unknown tool: <name>] exactly when its name is not
    the name of a registered tool (names compared code unit by code unit). *)
Theorem unknown_tool_iff_unregistered (req : CallToolRequest.params)
    (store : list SkiRental.t) :
  fst (CallTool_handler toLowerCase TypeError_message req store)
    = Normal {| content := [text_block (js "Unknown tool: " ++ CallToolRequest.name req)];
                isError := Some true |}
  ↔ ¬ registered (CallToolRequest.name req).
Proof using Type.
  destruct req as [name args]. cbn [CallToolRequest.name].
  split.
  - intros Hres Hreg.
    apply registered_cases in Hreg as [-> | [-> | [-> | ->]]].
    + unfold CallTool_handler in Hres.
      cbn [CallToolRequest.name CallToolRequest.arguments fst] in Hres.
      by rewrite try_block_list in Hres.
    + destruct args as [o|]; [|by vm_compute in Hres].
      pose proof (handler_details_value store o (default VUndefined (o !! js "rental_id"))) as Hd.
      unfold CallTool_handler, request in Hres, Hd.
      cbn [CallToolRequest.name CallToolRequest.arguments fst] in Hres, Hd.
      rewrite try_block_details in Hres. unfold get_property in Hres.
      cbn [mbind completion_bind] in Hres.
      destruct (List.find _ store); [done|].
      destruct (ToString TypeError_message (default VUndefined (o !! js "rental_id")));
        cbn [mbind completion_bind mret completion_ret try_catch] in Hres;
        injection Hres as Hres; by vm_compute in Hres.
    + destruct (handler_lowered_argument store (js "search_rentals") (js "query") args)
        as [(o & q & _ & _ & t & Ht) | [_ [f Hf]]]; [by left | |];
        unfold request in *; [rewrite Ht in Hres | rewrite Hf in Hres];
        cbn [fst] in Hres; [done|].
      injection Hres as Hres. by vm_compute in Hres.
    + destruct (handler_lowered_argument store (js "get_rental_recommendations") (js "need") args)
        as [(o & q & _ & _ & t & Ht) | [_ [f Hf]]]; [by right | |];
        unfold request in *; [rewrite Ht in Hres | rewrite Hf in Hres];
        cbn [fst] in Hres; [done|].
      injection Hres as Hres. by vm_compute in Hres.
  - intros Hreg. unfold CallTool_handler.
    cbn [CallToolRequest.name CallToolRequest.arguments fst].
    by rewrite try_block_unknown.
Qed.

(** X3: [search_rentals] and [get_rental_recommendations] succeed exactly
    when there is an arguments object whose [query] (respectively [need]) is
    a string; with no arguments object, without the member, or with a
    member of another type ([null], boolean, number, object) the answer is
    error-flagged and reads [Error: ] followed by the message of a
    [TypeError]. *)
Theorem lowercased_argument_must_be_string (store : list SkiRental.t)
    (name k : jsstring) (args : option (gmap jsstring jsvalue)) :
  (name = js "search_rentals" ∧ k = js "query")
  ∨ (name = js "get_rental_recommendations" ∧ k = js "need") →
  ∃ result,
    CallTool_handler toLowerCase TypeError_message (request name args) store
      = (Normal result, store)
    ∧ (isError result = None ↔ ∃ o q, args = Some o ∧ o !! k = Some (VString q))
    ∧ (isError result ≠ None →
       ∃ f, result = {| content := [text_block (js "Error: " ++ TypeError_message f)];
                        isError := Some true |}).
Proof using Type.
  intros Htool.
  destruct (handler_lowered_argument store name k args Htool)
    as [(o & q & -> & Hq & t & Ht) | [Hnot [f Hf]]].
  - exists (success t). split; [done|]. split; [|done].
    split; [intros _; by exists o, q | done].
  - exists (failure (js "Error: " ++ TypeError_message f)). split; [done|].
    split; [|intros _; by exists f].
    split; [done|]. intros (o & q & -> & Hq). by destruct (Hnot o q).
Qed.

(** X4: [get_rental_details] succeeds exactly when there is an arguments
    object whose [rental_id] is a string that is the id of a record of the
    store. *)
Theorem get_rental_details_succeeds_iff (store : list SkiRental.t)
    (args : option (gmap jsstring jsvalue)) :
  ∃ result,
    CallTool_handler toLowerCase TypeError_message
        (request (js "get_rental_details") args) store
      = (Normal result, store)
    ∧ (isError result = None
       ↔ ∃ o rid r, args = Some o ∧ o !! js "rental_id" = Some (VString rid)
                    ∧ r ∈ store ∧ SkiRental.id r = rid).
Proof using Type.
  destruct args as [o|].
  - destruct (o !! js "rental_id") as [v|] eqn:Hv.
    + rewrite (handler_details_value store o v Hv).
      assert ((∃ s, v = VString s) ∨ ∀ s, v ≠ VString s) as [[rid ->] | Hns].
      { destruct v as [| |b|n|s|sh]; try (by right). left. by exists s. }
      * pose proof (find_strict_equals_string store rid) as Hfind.
        destruct (List.find _ store) as [rental|].
        { eexists. split; [done|]. split; [intros _ | done].
          destruct Hfind as [Hin Hid]. by exists o, rid, rental. }
        eexists. split; [done|]. split; [done|].
        intros (o' & rid' & r & [= <-] & Hrid & Hr & Hid).
        rewrite Hv in Hrid. injection Hrid as <-. by destruct (Hfind r).
      * rewrite strict_equals_non_string by done.
        destruct (ToString TypeError_message v); eexists; (split; [done|]);
          (split; [done|]);
          intros (o' & rid' & r & [= <-] & Hrid & _); rewrite Hv in Hrid;
          injection Hrid as ->; by destruct (Hns rid').
    + exists (failure (not_found_text (js "undefined"))). split.
      * unfold CallTool_handler, request.
        cbn [CallToolRequest.name CallToolRequest.arguments].
        rewrite try_block_details. unfold get_property. rewrite Hv. simpl.
        by rewrite find_never.
      * split; [done|]. intros (o' & rid' & r & [= <-] & Hrid & _). congruence.
  - eexists. split; [reflexivity|]. split; [done|].
    by intros (o' & rid' & r & [=] & _).
Qed.

(** X5: a [rental_id] that is not a string never selects a record, whatever
    the store holds: the answer is the error-flagged not-found text with the
    value converted to a string, or [Error: ] and the message of the fault
    when the conversion throws. *)
Theorem get_rental_details_non_string_id (store : list SkiRental.t)
    (o : gmap jsstring jsvalue) (v : jsvalue) :
  o !! js "rental_id" = Some v →
  (∀ s, v ≠ VString s) →
  CallTool_handler toLowerCase TypeError_message
      (request (js "get_rental_details") (Some o)) store
    = (Normal {| content :=
                   [text_block match ToString TypeError_message v with
                               | Normal shown =>
                                   js "Ski rental shop with ID " ++ [DQUOTE] ++ shown
                                     ++ [DQUOTE] ++ js " not found."
                               | Throw e => js "Error: " ++ error_text e
                               end];
                 isError := Some true |}, store).
Proof using Type.
  intros Hv Hns. rewrite (handler_details_value store o v Hv).
  rewrite strict_equals_non_string by done.
  by destruct (ToString TypeError_message v).
Qed.

Lemma find_first_match (pre post : list SkiRental.t) (r : SkiRental.t) :
  (∀ p, p ∈ pre → SkiRental.id p ≠ SkiRental.id r) →
  List.find (fun x => strict_equals (SkiRental.id x) (VString (SkiRental.id r)))
            (pre ++ r :: post) = Some r.
Proof using Type.
  intros Hpre. induction pre as [|p pre IH]; simpl.
  - unfold string_strict_eq. by rewrite bool_decide_eq_true_2.
  - unfold string_strict_eq at 1. rewrite bool_decide_eq_false_2.
    + apply IH. intros p' Hp'. apply Hpre. by right.
    + apply Hpre. by left.
Qed.

(** X6: when several records share an id, [get_rental_details] answers with
    the first of them in store order; the later ones cannot be retrieved. *)
Theorem get_rental_details_first_match (pre post : list SkiRental.t)
    (r : SkiRental.t) (o : gmap jsstring jsvalue) :
  o !! js "rental_id" = Some (VString (SkiRental.id r)) →
  (∀ p, p ∈ pre → SkiRental.id p ≠ SkiRental.id r) →
  CallTool_handler toLowerCase TypeError_message
      (request (js "get_rental_details") (Some o)) (pre ++ r :: post)
    = (Normal {| content := [text_block (JSON_stringify (to_json r))]; isError := None |},
       pre ++ r :: post).
Proof using Type.
  intros Hid Hpre. rewrite (handler_details_value _ o _ Hid).
  by rewrite find_first_match.
Qed.

(** X7: in a store whose ids are pairwise distinct every record is
    retrieved by its own id: [get_rental_details] with the id of a record
    of the store answers with the serialization of that very record. *)
Theorem get_rental_details_retrieves_record (store : list SkiRental.t)
    (r : SkiRental.t) (o : gmap jsstring jsvalue) :
  NoDup (List.map SkiRental.id store) →
  r ∈ store →
  o !! js "rental_id" = Some (VString (SkiRental.id r)) →
  CallTool_handler toLowerCase TypeError_message
      (request (js "get_rental_details") (Some o)) store
    = (Normal {| content := [text_block (JSON_stringify (to_json r))]; isError := None |},
       store).
Proof using Type.
  intros Hnodup Hr Hid.
  apply list_elem_of_split in Hr as (pre & post & ->).
  rewrite (handler_details_value _ o _ Hid), find_first_match; [done|].
  intros p Hp Heq. rewrite map_app in Hnodup. simpl in Hnodup.
  apply NoDup_app in Hnodup as (_ & Hdisj & _).
  apply (Hdisj (SkiRental.id p)).
  - apply list_elem_of_fmap_2. done.
  - rewrite Heq. by left.
Qed.

Lemma occurs_in_refl (s : jsstring) : occurs_in s s.
Proof using Type. exists [], []. by rewrite app_nil_r. Qed.

Lemma occurs_in_trans (a b c : jsstring) :
  occurs_in a b → occurs_in b c → occurs_in a c.
Proof using Type.
  intros (pre & post & ->) (pre' & post' & ->).
  exists (pre' ++ pre), (post ++ post'). by rewrite <- !app_assoc.
Qed.

Lemma matches_query_narrow (q q' : jsstring) (r : SkiRental.t) :
  occurs_in q q' → matches_query toLowerCase q' r → matches_query toLowerCase q r.
Proof using Type.
  intros Hq. unfold matches_query.
  intros [H | [H | [H | [(s & Hs & H) | (t & Ht & H)]]]];
    eauto 8 using occurs_in_trans.
Qed.

Lemma filter_sublist_store {A : Type} (p : A → bool) (l : list A) :
  sublist (List.filter p l) l.
Proof using Type.
  induction l as [|x l IH]; simpl; [constructor|].
  destruct (p x); by constructor.
Qed.

Lemma filter_sublist_stronger {A : Type} (p p' : A → bool) (l : list A) :
  (∀ x, p' x = true → p x = true) →
  sublist (List.filter p' l) (List.filter p l).
Proof using Type.
  intros Himp. induction l as [|x l IH]; simpl; [constructor|].
  destruct (p' x) eqn:Hp'.
  - rewrite (Himp x Hp'). by constructor.
  - destruct (p x); [by constructor | done].
Qed.

(** X8: a record is found by searching for its own name, location or
    description, or for any of its [services] or [rentalTypes], whatever the
    case of the letters in the stored text. *)
Theorem search_finds_record_by_own_field (store : list SkiRental.t)
    (o : gmap jsstring jsvalue) (q : jsstring) (r : SkiRental.t) :
  o !! js "query" = Some (VString q) →
  r ∈ store →
  q = SkiRental.name r ∨ q = SkiRental.location r ∨ q = SkiRental.description r
  ∨ q ∈ SkiRental.services r ∨ q ∈ SkiRental.rentalTypes r →
  ∃ results,
    CallTool_handler toLowerCase TypeError_message
        (request (js "search_rentals") (Some o)) store
      = (Normal {| content := [text_block (JSON_stringify (JArray (List.map to_json results)))];
                   isError := None |}, store)
    ∧ r ∈ results.
Proof using Type.
  intros Hq Hr Hfield.
  exists (List.filter (search_matches toLowerCase (toLowerCase q)) store).
  split; [by apply handler_search_string|].
  rewrite list_elem_of_In, filter_In, <- list_elem_of_In. split; [done|].
  apply search_matches_spec. unfold matches_query.
  destruct Hfield as [-> | [-> | [-> | [Hs | Ht]]]];
    eauto 8 using occurs_in_refl.
Qed.

(** X9: extending the query narrows the result: when the lower-cased query
    of one search occurs inside the lower-cased query of another, the
    records of the second answer are among those of the first, in the same
    order. *)
Theorem search_longer_query_narrows (store : list SkiRental.t)
    (o o' : gmap jsstring jsvalue) (q q' : jsstring) :
  o !! js "query" = Some (VString q) →
  o' !! js "query" = Some (VString q') →
  occurs_in (toLowerCase q) (toLowerCase q') →
  ∃ results results',
    CallTool_handler toLowerCase TypeError_message
        (request (js "search_rentals") (Some o)) store
      = (Normal {| content := [text_block (JSON_stringify (JArray (List.map to_json results)))];
                   isError := None |}, store)
    ∧ CallTool_handler toLowerCase TypeError_message
        (request (js "search_rentals") (Some o')) store
      = (Normal {| content := [text_block (JSON_stringify (JArray (List.map to_json results')))];
                   isError := None |}, store)
    ∧ results = List.filter (search_matches toLowerCase (toLowerCase q)) store
    ∧ results' = List.filter (search_matches toLowerCase (toLowerCase q')) store
    ∧ sublist results' results.
Proof using Type.
  intros Hq Hq' Hocc. eexists _, _.
  split; [by apply handler_search_string|].
  split; [by apply handler_search_string|].
  split; [done|]. split; [done|].
  apply filter_sublist_stronger. intros r.
  rewrite !search_matches_spec. by apply matches_query_narrow.
Qed.

(** X10: a call is answered from the arguments its tool declares in the
    registry and from nothing else: two arguments objects that agree on the
    declared properties of the named tool get the same answer (for a name
    that is not registered, any two objects do). *)
Theorem undeclared_arguments_ignored (store : list SkiRental.t) (name : jsstring)
    (o o' : gmap jsstring jsvalue) :
  (∀ k, k ∈ declared_properties name → o !! k = o' !! k) →
  CallTool_handler toLowerCase TypeError_message (request name (Some o)) store
  = CallTool_handler toLowerCase TypeError_message (request name (Some o')) store.
Proof using Type.
  intros Hagree. unfold CallTool_handler, request.
  cbn [CallToolRequest.name CallToolRequest.arguments].
  destruct (decide (name ∈ List.map Tool.name tools)) as [Hreg | Hreg].
  - apply registered_cases in Hreg as [-> | [-> | [-> | ->]]].
    + by rewrite !try_block_list.
    + rewrite !try_block_details. unfold get_property.
      rewrite (Hagree (js "rental_id")); [done|].
      change (declared_properties (js "get_rental_details")) with [js "rental_id"].
      by left.
    + rewrite !try_block_search. unfold get_property.
      rewrite (Hagree (js "query")); [done|].
      change (declared_properties (js "search_rentals")) with [js "query"].
      by left.
    + rewrite !try_block_recommend. unfold get_property.
      rewrite (Hagree (js "need")); [done|].
      change (declared_properties (js "get_rental_recommendations")) with [js "need"].
      by left.
  - by rewrite !try_block_unknown.
Qed.

Lemma recommend_sublist (store : list SkiRental.t) (n : jsstring) :
  sublist (recommendations (recommend toLowerCase store n)) store.
Proof using Type.
  unfold recommend.
  repeat match goal with
         | |- context [if ?b then _ else _] => destruct b
         end;
    cbn [recommendations]; (apply filter_sublist_store || reflexivity).
Qed.

(** X11: whatever the need, the recommended records are records of the
    store in store order (a sublist of it): no case of the switch adds,
    repeats or reorders records. *)
Theorem recommendations_from_store (store : list SkiRental.t)
    (o : gmap jsstring jsvalue) (need : jsstring) :
  o !! js "need" = Some (VString need) →
  ∃ response,
    CallTool_handler toLowerCase TypeError_message
        (request (js "get_rental_recommendations") (Some o)) store
      = (Normal {| content := [text_block (JSON_stringify (JObject
           [ (js "explanation", JString (explanation response));
             (js "recommendations", JArray (List.map to_json (recommendations response))) ]))];
                   isError := None |}, store)
    ∧ response = recommend toLowerCase store (toLowerCase need)
    ∧ sublist (recommendations response) store.
Proof using Type.
  intros Hneed. eexists. split; [by apply handler_recommend_string|].
  split; [done|]. apply recommend_sublist.
Qed.

(** X12: [get_rental_recommendations] reads the need case-insensitively:
    two needs with the same lower-casing get the same answer. *)
Theorem recommend_case_insensitive (store : list SkiRental.t)
    (o o' : gmap jsstring jsvalue) (need need' : jsstring) :
  o !! js "need" = Some (VString need) →
  o' !! js "need" = Some (VString need') →
  toLowerCase need = toLowerCase need' →
  CallTool_handler toLowerCase TypeError_message
      (request (js "get_rental_recommendations") (Some o)) store
  = CallTool_handler toLowerCase TypeError_message
      (request (js "get_rental_recommendations") (Some o')) store.
Proof using Type.
  intros Hneed Hneed' Hsame.
  rewrite (handler_recommend_string _ _ store o need Hneed).
  rewrite (handler_recommend_string _ _ store o' need' Hneed').
  by rewrite Hsame.
Qed.

(** X13: the labels that share a case of the switch are synonyms: needs
    that lower-case to [expert] and [advanced], to [backcountry] and
    [touring], to [budget] and [affordable], to [premium] and [luxury], or
    to [family] and [kids] get the same answer, explanation included. *)
Theorem recommend_synonyms (store : list SkiRental.t)
    (o o' : gmap jsstring jsvalue) (need need' : jsstring) :
  o !! js "need" = Some (VString need) →
  o' !! js "need" = Some (VString need') →
  (toLowerCase need, toLowerCase need') ∈ alias_labels →
  CallTool_handler toLowerCase TypeError_message
      (request (js "get_rental_recommendations") (Some o)) store
  = CallTool_handler toLowerCase TypeError_message
      (request (js "get_rental_recommendations") (Some o')) store.
Proof using Type.
  intros Hneed Hneed' Hpair.
  rewrite (handler_recommend_string _ _ store o need Hneed).
  rewrite (handler_recommend_string _ _ store o' need' Hneed').
  unfold alias_labels in Hpair. rewrite !elem_of_cons, elem_of_nil in Hpair.
  destruct Hpair as [[= -> ->] | [[= -> ->] | [[= -> ->] | [[= -> ->] | [[= -> ->] | []]]]]];
    reflexivity.
Qed.

Lemma tag_test (word : jsstring) (tags : list jsstring) :
  existsb (fun t => includes (toLowerCase t) word) tags = true
  ↔ has_tag toLowerCase word tags.
Proof using Type.
  rewrite existsb_elem_of. unfold has_tag. by setoid_rewrite includes_spec.
Qed.

Lemma tag_test_either (word word' : jsstring) (tags : list jsstring) :
  existsb (fun t => includes (toLowerCase t) word || includes (toLowerCase t) word') tags
    = true
  ↔ has_tag toLowerCase word tags ∨ has_tag toLowerCase word' tags.
Proof using Type.
  rewrite existsb_elem_of. unfold has_tag.
  setoid_rewrite orb_true_iff. setoid_rewrite includes_spec.
  split.
  - intros (t & Ht & [H | H]); [left | right]; by exists t.
  - intros [(t & Ht & H) | (t & Ht & H)]; exists t; auto.
Qed.

Ltac evaluate_switch :=
  unfold recommend;
  repeat match goal with
         | |- context [string_strict_eq ?a ?b] =>
             let v := eval vm_compute in (string_strict_eq a b) in
             change (string_strict_eq a b) with v
         end;
  cbn [orb recommendations explanation].

Ltac branch_membership :=
  evaluate_switch;
  rewrite list_elem_of_In, filter_In, <- list_elem_of_In;
  unfold string_strict_eq;
  rewrite ?orb_true_iff, ?tag_test, ?tag_test_either, ?includes_spec,
    ?bool_decide_eq_true;
  tauto.

(** X14: for a need that lower-cases to [beginner] the answer carries the
    beginner explanation and exactly the records of the store that have a
    rental type containing [beginner] (case-insensitively) or the id
    [paragon-ski-snowboard] or [mountain-sports-telluride]; these two ids are
    recommended whatever their tags. *)
Theorem recommend_beginner (store : list SkiRental.t)
    (o : gmap jsstring jsvalue) (need : jsstring) :
  o !! js "need" = Some (VString need) →
  toLowerCase need = js "beginner" →
  ∃ recs,
    CallTool_handler toLowerCase TypeError_message
        (request (js "get_rental_recommendations") (Some o)) store
      = (Normal {| content := [text_block (JSON_stringify (JObject
           [ (js "explanation", JString (js "These shops offer beginner-friendly equipment and packages with great service for first-timers."));
             (js "recommendations", JArray (List.map to_json recs)) ]))];
                   isError := None |}, store)
    ∧ recs = recommendations (recommend toLowerCase store (toLowerCase need))
    ∧ (∀ r, r ∈ recs ↔ r ∈ store ∧ (has_tag toLowerCase (js "beginner") (SkiRental.rentalTypes r)
                              ∨ SkiRental.id r = js "paragon-ski-snowboard"
                              ∨ SkiRental.id r = js "mountain-sports-telluride")).
Proof using Type.
  intros Hneed Hlabel.
  rewrite (handler_recommend_string _ _ store o need Hneed).
  exists (recommendations (recommend toLowerCase store (toLowerCase need))).
  rewrite Hlabel. split; [reflexivity|]. split; [reflexivity|].
  intros r. branch_membership.
Qed.

(** X15: for a need that lower-cases to [expert] or [advanced] the answer
    carries the expert explanation and exactly the records of the store that
    have a rental type containing [performance] or [premium]
    (case-insensitively) or the id [bootdoctors] or [telluride-sports]. *)
Theorem recommend_expert (store : list SkiRental.t)
    (o : gmap jsstring jsvalue) (need : jsstring) :
  o !! js "need" = Some (VString need) →
  toLowerCase need = js "expert" ∨ toLowerCase need = js "advanced" →
  ∃ recs,
    CallTool_handler toLowerCase TypeError_message
        (request (js "get_rental_recommendations") (Some o)) store
      = (Normal {| content := [text_block (JSON_stringify (JObject
           [ (js "explanation", JString (js "These shops specialize in high-performance equipment and expert boot fitting for advanced skiers."));
             (js "recommendations", JArray (List.map to_json recs)) ]))];
                   isError := None |}, store)
    ∧ recs = recommendations (recommend toLowerCase store (toLowerCase need))
    ∧ (∀ r, r ∈ recs ↔ r ∈ store ∧ ((has_tag toLowerCase (js "performance") (SkiRental.rentalTypes r)
                               ∨ has_tag toLowerCase (js "premium") (SkiRental.rentalTypes r))
                              ∨ SkiRental.id r = js "bootdoctors"
                              ∨ SkiRental.id r = js "telluride-sports")).
Proof using Type.
  intros Hneed Hlabel.
  rewrite (handler_recommend_string _ _ store o need Hneed).
  exists (recommendations (recommend toLowerCase store (toLowerCase need))).
  destruct Hlabel as [-> | ->]; (split; [reflexivity|]); (split; [reflexivity|]);
    intros r; branch_membership.
Qed.

(** X16: for a need that lower-cases to [backcountry] or [touring] the answer
    carries the backcountry explanation and exactly the records of the store
    with a service containing [backcountry] or a rental type containing
    [backcountry] or [touring] (case-insensitively); a service containing
    [touring] does not count. *)
Theorem recommend_backcountry (store : list SkiRental.t)
    (o : gmap jsstring jsvalue) (need : jsstring) :
  o !! js "need" = Some (VString need) →
  toLowerCase need = js "backcountry" ∨ toLowerCase need = js "touring" →
  ∃ recs,
    CallTool_handler toLowerCase TypeError_message
        (request (js "get_rental_recommendations") (Some o)) store
      = (Normal {| content := [text_block (JSON_stringify (JObject
           [ (js "explanation", JString (js "These shops offer backcountry and touring equipment with avalanche safety gear."));
             (js "recommendations", JArray (List.map to_json recs)) ]))];
                   isError := None |}, store)
    ∧ recs = recommendations (recommend toLowerCase store (toLowerCase need))
    ∧ (∀ r, r ∈ recs ↔ r ∈ store ∧ (has_tag toLowerCase (js "backcountry") (SkiRental.services r)
                              ∨ has_tag toLowerCase (js "backcountry") (SkiRental.rentalTypes r)
                              ∨ has_tag toLowerCase (js "touring") (SkiRental.rentalTypes r))).
Proof using Type.
  intros Hneed Hlabel.
  rewrite (handler_recommend_string _ _ store o need Hneed).
  exists (recommendations (recommend toLowerCase store (toLowerCase need))).
  destruct Hlabel as [-> | ->]; (split; [reflexivity|]); (split; [reflexivity|]);
    intros r; branch_membership.
Qed.

(** X17: for a need that lower-cases to [delivery] the answer carries the
    delivery explanation and exactly the records of the store with a service
    containing [delivery] (case-insensitively) or the id
    [telluride-ski-rental-delivery]. *)
Theorem recommend_delivery (store : list SkiRental.t)
    (o : gmap jsstring jsvalue) (need : jsstring) :
  o !! js "need" = Some (VString need) →
  toLowerCase need = js "delivery" →
  ∃ recs,
    CallTool_handler toLowerCase TypeError_message
        (request (js "get_rental_recommendations") (Some o)) store
      = (Normal {| content := [text_block (JSON_stringify (JObject
           [ (js "explanation", JString (js "These shops offer delivery service to your accommodation."));
             (js "recommendations", JArray (List.map to_json recs)) ]))];
                   isError := None |}, store)
    ∧ recs = recommendations (recommend toLowerCase store (toLowerCase need))
    ∧ (∀ r, r ∈ recs ↔ r ∈ store ∧ (has_tag toLowerCase (js "delivery") (SkiRental.services r)
                              ∨ SkiRental.id r = js "telluride-ski-rental-delivery")).
Proof using Type.
  intros Hneed Hlabel.
  rewrite (handler_recommend_string _ _ store o need Hneed).
  exists (recommendations (recommend toLowerCase store (toLowerCase need))).
  rewrite Hlabel. split; [reflexivity|]. split; [reflexivity|].
  intros r. branch_membership.
Qed.

(** X18: for a need that lower-cases to [budget] or [affordable] the answer
    carries the budget explanation and exactly the records of the store whose
    price range contains the text [$30] or [$35], or whose id is
    [mountain-sports-telluride]; the price is matched as text, so a range
    starting at [$300] or [$350] counts as well. *)
Theorem recommend_budget (store : list SkiRental.t)
    (o : gmap jsstring jsvalue) (need : jsstring) :
  o !! js "need" = Some (VString need) →
  toLowerCase need = js "budget" ∨ toLowerCase need = js "affordable" →
  ∃ recs,
    CallTool_handler toLowerCase TypeError_message
        (request (js "get_rental_recommendations") (Some o)) store
      = (Normal {| content := [text_block (JSON_stringify (JObject
           [ (js "explanation", JString (js "These shops offer the most affordable rental options in the Telluride area."));
             (js "recommendations", JArray (List.map to_json recs)) ]))];
                   isError := None |}, store)
    ∧ recs = recommendations (recommend toLowerCase store (toLowerCase need))
    ∧ (∀ r, r ∈ recs ↔ r ∈ store ∧ (occurs_in (js "$30") (SkiRental.priceRange r)
                              ∨ occurs_in (js "$35") (SkiRental.priceRange r)
                              ∨ SkiRental.id r = js "mountain-sports-telluride")).
Proof using Type.
  intros Hneed Hlabel.
  rewrite (handler_recommend_string _ _ store o need Hneed).
  exists (recommendations (recommend toLowerCase store (toLowerCase need))).
  destruct Hlabel as [-> | ->]; (split; [reflexivity|]); (split; [reflexivity|]);
    intros r; branch_membership.
Qed.

(** X19: for a need that lower-cases to [family] or [kids] the answer carries
    the family explanation and exactly the records of the store with a rental
    type containing [kids] or [junior] (case-insensitively); no id is
    designated. *)
Theorem recommend_family (store : list SkiRental.t)
    (o : gmap jsstring jsvalue) (need : jsstring) :
  o !! js "need" = Some (VString need) →
  toLowerCase need = js "family" ∨ toLowerCase need = js "kids" →
  ∃ recs,
    CallTool_handler toLowerCase TypeError_message
        (request (js "get_rental_recommendations") (Some o)) store
      = (Normal {| content := [text_block (JSON_stringify (JObject
           [ (js "explanation", JString (js "These shops have great options for families and children's equipment."));
             (js "recommendations", JArray (List.map to_json recs)) ]))];
                   isError := None |}, store)
    ∧ recs = recommendations (recommend toLowerCase store (toLowerCase need))
    ∧ (∀ r, r ∈ recs ↔ r ∈ store ∧ (has_tag toLowerCase (js "kids") (SkiRental.rentalTypes r)
                              ∨ has_tag toLowerCase (js "junior") (SkiRental.rentalTypes r))).
Proof using Type.
  intros Hneed Hlabel.
  rewrite (handler_recommend_string _ _ store o need Hneed).
  exists (recommendations (recommend toLowerCase store (toLowerCase need))).
  destruct Hlabel as [-> | ->]; (split; [reflexivity|]); (split; [reflexivity|]);
    intros r; branch_membership.
Qed.

End Coverage.

(** ** The rest of the handler run on sample stores *)

Lemma skiRentals_ids_distinct : NoDup (List.map SkiRental.id skiRentals).
Proof.
  apply (bool_decide_unpack (NoDup (List.map SkiRental.id skiRentals))).
  vm_compute. exact I.
Qed.

Lemma lowercased_argument_must_be_string_witness :
  ((js "search_rentals" = js "search_rentals" ∧ js "query" = js "query")
   ∨ (js "search_rentals" = js "get_rental_recommendations" ∧ js "query" = js "need"))
  ∧ ∃ result,
      CallTool_handler ascii_toLowerCase v8_message
          (request (js "search_rentals") (Some null_query)) skiRentals
        = (Normal result, skiRentals)
      ∧ isError result = Some true.
Proof.
  assert ((js "search_rentals" = js "search_rentals" ∧ js "query" = js "query")
          ∨ (js "search_rentals" = js "get_rental_recommendations" ∧ js "query" = js "need"))
    as Htool by (left; split; reflexivity).
  split; [exact Htool|].
  destruct (lowercased_argument_must_be_string ascii_toLowerCase v8_message skiRentals
              (js "search_rentals") (js "query") (Some null_query) Htool)
    as (result & Hcall & Hiff & Herr).
  exists result. split; [exact Hcall|].
  destruct Herr as [f ->]; [|reflexivity].
  intros Hnone. apply Hiff in Hnone as (o & q & [= <-] & Hq).
  vm_compute in Hq. discriminate Hq.
Defined.

Lemma get_rental_details_non_string_id_witness :
  number_id !! js "rental_id" = Some (VNumber (js "42"))
  ∧ numbered_shop ∈ numbered_shop :: skiRentals
  ∧ SkiRental.id numbered_shop = js "42"
  ∧ CallTool_handler ascii_toLowerCase v8_message
        (request (js "get_rental_details") (Some number_id)) (numbered_shop :: skiRentals)
      = (Normal (failure (not_found_text (js "42"))), numbered_shop :: skiRentals).
Proof.
  split; [reflexivity|]. split; [by left|]. split; [reflexivity|].
  apply (get_rental_details_non_string_id ascii_toLowerCase v8_message
           (numbered_shop :: skiRentals) number_id (VNumber (js "42")));
    [reflexivity | intros s Hs; discriminate Hs].
Defined.

Lemma get_rental_details_first_match_witness :
  bootdoctors_id !! js "rental_id" = Some (VString (SkiRental.id bootdoctors))
  ∧ SkiRental.id bootdoctors_annex = SkiRental.id bootdoctors
  ∧ CallTool_handler ascii_toLowerCase v8_message
        (request (js "get_rental_details") (Some bootdoctors_id))
        (skiRentals ++ [bootdoctors_annex])
      = (Normal (success (JSON_stringify (to_json bootdoctors))),
         skiRentals ++ [bootdoctors_annex]).
Proof.
  split; [reflexivity|]. split; [reflexivity|].
  apply (get_rental_details_first_match ascii_toLowerCase v8_message
           [telluride_sports]
           [jagged_edge; paragon_ski_snowboard; telluride_ski_rental_delivery;
            mountain_sports_telluride; bootdoctors_annex]
           bootdoctors bootdoctors_id); [reflexivity|].
  intros p Hp Hid. apply list_elem_of_singleton in Hp. subst p.
  vm_compute in Hid. discriminate Hid.
Defined.

Lemma get_rental_details_retrieves_record_witness :
  NoDup (List.map SkiRental.id skiRentals)
  ∧ mountain_sports_telluride ∈ skiRentals
  ∧ CallTool_handler ascii_toLowerCase v8_message
        (request (js "get_rental_details") (Some mountain_sports_id)) skiRentals
      = (Normal (success (JSON_stringify (to_json mountain_sports_telluride))), skiRentals).
Proof.
  assert (mountain_sports_telluride ∈ skiRentals) as Hin.
  { unfold skiRentals. rewrite !elem_of_cons. tauto. }
  split; [exact skiRentals_ids_distinct|]. split; [exact Hin|].
  apply (get_rental_details_retrieves_record ascii_toLowerCase v8_message skiRentals
           mountain_sports_telluride mountain_sports_id);
    [exact skiRentals_ids_distinct | exact Hin | reflexivity].
Defined.

Lemma search_finds_record_by_own_field_witness :
  name_query !! js "query" = Some (VString (SkiRental.name jagged_edge))
  ∧ ∃ results,
      CallTool_handler ascii_toLowerCase v8_message
          (request (js "search_rentals") (Some name_query)) skiRentals
        = (Normal (success (JSON_stringify (JArray (List.map to_json results)))), skiRentals)
      ∧ jagged_edge ∈ results.
Proof.
  split; [reflexivity|].
  apply (search_finds_record_by_own_field ascii_toLowerCase v8_message skiRentals
           name_query (SkiRental.name jagged_edge) jagged_edge).
  - reflexivity.
  - unfold skiRentals. rewrite !elem_of_cons. tauto.
  - left. reflexivity.
Defined.

Lemma search_longer_query_narrows_witness :
  occurs_in (ascii_toLowerCase (js "Boot")) (ascii_toLowerCase (js "BOOT FITTING"))
  ∧ ∃ results results',
      fst (CallTool_handler ascii_toLowerCase v8_message
             (request (js "search_rentals") (Some boot_query)) skiRentals)
        = Normal (success (JSON_stringify (JArray (List.map to_json results))))
      ∧ fst (CallTool_handler ascii_toLowerCase v8_message
               (request (js "search_rentals") (Some boot_fitting_query)) skiRentals)
        = Normal (success (JSON_stringify (JArray (List.map to_json results'))))
      ∧ results = [telluride_sports; bootdoctors; mountain_sports_telluride]
      ∧ results' = [telluride_sports; bootdoctors]
      ∧ sublist results' results.
Proof.
  assert (occurs_in (ascii_toLowerCase (js "Boot")) (ascii_toLowerCase (js "BOOT FITTING")))
    as Hocc by (exists [], (js " fitting"); reflexivity).
  split; [exact Hocc|].
  destruct (search_longer_query_narrows ascii_toLowerCase v8_message skiRentals
              boot_query boot_fitting_query (js "Boot") (js "BOOT FITTING"))
    as (results & results' & Hcall & Hcall' & Hres & Hres' & Hsub);
    [reflexivity | reflexivity | exact Hocc |].
  exists results, results'.
  split; [by rewrite Hcall|]. split; [by rewrite Hcall'|].
  split; [rewrite Hres; vm_compute; reflexivity|].
  split; [rewrite Hres'; vm_compute; reflexivity|]. exact Hsub.
Defined.

Lemma undeclared_arguments_ignored_witness :
  (∀ k, k ∈ declared_properties (js "search_rentals") →
        boot_query !! k = query_with_extras !! k)
  ∧ query_with_extras !! js "limit" = Some (VNumber (js "1"))
  ∧ CallTool_handler ascii_toLowerCase v8_message
        (request (js "search_rentals") (Some boot_query)) skiRentals
    = CallTool_handler ascii_toLowerCase v8_message
        (request (js "search_rentals") (Some query_with_extras)) skiRentals.
Proof.
  assert (∀ k, k ∈ declared_properties (js "search_rentals") →
               boot_query !! k = query_with_extras !! k) as Hagree.
  { intros k Hk.
    change (declared_properties (js "search_rentals")) with [js "query"] in Hk.
    apply list_elem_of_singleton in Hk. subst k. vm_compute. reflexivity. }
  split; [exact Hagree|]. split; [vm_compute; reflexivity|].
  apply (undeclared_arguments_ignored ascii_toLowerCase v8_message skiRentals
           (js "search_rentals") boot_query query_with_extras Hagree).
Defined.

Lemma recommendations_from_store_witness :
  need_of "DELIVERY" !! js "need" = Some (VString (js "DELIVERY"))
  ∧ ∃ response,
      fst (CallTool_handler ascii_toLowerCase v8_message
             (request (js "get_rental_recommendations") (Some (need_of "DELIVERY")))
             skiRentals)
        = Normal (success (JSON_stringify (response_json response)))
      ∧ recommendations response = [paragon_ski_snowboard; telluride_ski_rental_delivery]
      ∧ sublist (recommendations response) skiRentals.
Proof.
  split; [reflexivity|].
  destruct (recommendations_from_store ascii_toLowerCase v8_message skiRentals
              (need_of "DELIVERY") (js "DELIVERY")) as (response & Hcall & Hresp & Hsub);
    [reflexivity|].
  exists response. split; [by rewrite Hcall|].
  split; [rewrite Hresp; vm_compute; reflexivity | exact Hsub].
Defined.

Lemma recommend_case_insensitive_witness :
  need_of "Premium" !! js "need" = Some (VString (js "Premium"))
  ∧ need_of "PREMIUM" !! js "need" = Some (VString (js "PREMIUM"))
  ∧ ascii_toLowerCase (js "Premium") = ascii_toLowerCase (js "PREMIUM")
  ∧ CallTool_handler ascii_toLowerCase v8_message
        (request (js "get_rental_recommendations") (Some (need_of "Premium"))) skiRentals
    = CallTool_handler ascii_toLowerCase v8_message
        (request (js "get_rental_recommendations") (Some (need_of "PREMIUM"))) skiRentals.
Proof.
  split; [reflexivity|]. split; [reflexivity|]. split; [reflexivity|].
  apply (recommend_case_insensitive ascii_toLowerCase v8_message skiRentals
           (need_of "Premium") (need_of "PREMIUM") (js "Premium") (js "PREMIUM"));
    reflexivity.
Defined.

Lemma recommend_synonyms_witness :
  need_of "Expert" !! js "need" = Some (VString (js "Expert"))
  ∧ need_of "ADVANCED" !! js "need" = Some (VString (js "ADVANCED"))
  ∧ (ascii_toLowerCase (js "Expert"), ascii_toLowerCase (js "ADVANCED")) ∈ alias_labels
  ∧ CallTool_handler ascii_toLowerCase v8_message
        (request (js "get_rental_recommendations") (Some (need_of "Expert"))) skiRentals
    = CallTool_handler ascii_toLowerCase v8_message
        (request (js "get_rental_recommendations") (Some (need_of "ADVANCED"))) skiRentals.
Proof.
  assert ((ascii_toLowerCase (js "Expert"), ascii_toLowerCase (js "ADVANCED")) ∈ alias_labels)
    as Hpair by apply list_elem_of_here.
  split; [reflexivity|]. split; [reflexivity|]. split; [exact Hpair|].
  apply (recommend_synonyms ascii_toLowerCase v8_message skiRentals
           (need_of "Expert") (need_of "ADVANCED") (js "Expert") (js "ADVANCED"));
    [reflexivity | reflexivity | exact Hpair].
Defined.

Lemma recommend_beginner_witness :
  need_of "Beginner" !! js "need" = Some (VString (js "Beginner"))
  ∧ ascii_toLowerCase (js "Beginner") = js "beginner"
  ∧ ∃ recs,
      CallTool_handler ascii_toLowerCase v8_message
          (request (js "get_rental_recommendations") (Some (need_of "Beginner")))
          (skiRentals)
        = (Normal {| content := [text_block (JSON_stringify (JObject
             [ (js "explanation", JString (js "These shops offer beginner-friendly equipment and packages with great service for first-timers."));
               (js "recommendations", JArray (List.map to_json recs)) ]))];
                     isError := None |}, skiRentals)
      ∧ recs = [paragon_ski_snowboard; mountain_sports_telluride].
Proof.
  split; [reflexivity|]. split; [reflexivity|].
  destruct (recommend_beginner ascii_toLowerCase v8_message (skiRentals)
              (need_of "Beginner") (js "Beginner")) as (recs & Hcall & Hrecs & _);
    [reflexivity | reflexivity |].
  exists recs. split; [exact Hcall|]. rewrite Hrecs. vm_compute. reflexivity.
Defined.

Lemma recommend_expert_witness :
  need_of "Advanced" !! js "need" = Some (VString (js "Advanced"))
  ∧ ascii_toLowerCase (js "Advanced") = js "advanced"
  ∧ ∃ recs,
      CallTool_handler ascii_toLowerCase v8_message
          (request (js "get_rental_recommendations") (Some (need_of "Advanced")))
          (skiRentals)
        = (Normal {| content := [text_block (JSON_stringify (JObject
             [ (js "explanation", JString (js "These shops specialize in high-performance equipment and expert boot fitting for advanced skiers."));
               (js "recommendations", JArray (List.map to_json recs)) ]))];
                     isError := None |}, skiRentals)
      ∧ recs = [telluride_sports; bootdoctors; telluride_ski_rental_delivery; mountain_sports_telluride].
Proof.
  split; [reflexivity|]. split; [reflexivity|].
  destruct (recommend_expert ascii_toLowerCase v8_message (skiRentals)
              (need_of "Advanced") (js "Advanced")) as (recs & Hcall & Hrecs & _);
    [reflexivity | right; reflexivity |].
  exists recs. split; [exact Hcall|]. rewrite Hrecs. vm_compute. reflexivity.
Defined.

Lemma recommend_backcountry_witness :
  need_of "Touring" !! js "need" = Some (VString (js "Touring"))
  ∧ ascii_toLowerCase (js "Touring") = js "touring"
  ∧ ∃ recs,
      CallTool_handler ascii_toLowerCase v8_message
          (request (js "get_rental_recommendations") (Some (need_of "Touring")))
          (skiRentals ++ [numbered_shop])
        = (Normal {| content := [text_block (JSON_stringify (JObject
             [ (js "explanation", JString (js "These shops offer backcountry and touring equipment with avalanche safety gear."));
               (js "recommendations", JArray (List.map to_json recs)) ]))];
                     isError := None |}, skiRentals ++ [numbered_shop])
      ∧ recs = [bootdoctors; jagged_edge].
Proof.
  split; [reflexivity|]. split; [reflexivity|].
  destruct (recommend_backcountry ascii_toLowerCase v8_message (skiRentals ++ [numbered_shop])
              (need_of "Touring") (js "Touring")) as (recs & Hcall & Hrecs & _);
    [reflexivity | right; reflexivity |].
  exists recs. split; [exact Hcall|]. rewrite Hrecs. vm_compute. reflexivity.
Defined.

Lemma recommend_delivery_witness :
  need_of "DELIVERY" !! js "need" = Some (VString (js "DELIVERY"))
  ∧ ascii_toLowerCase (js "DELIVERY") = js "delivery"
  ∧ ∃ recs,
      CallTool_handler ascii_toLowerCase v8_message
          (request (js "get_rental_recommendations") (Some (need_of "DELIVERY")))
          (skiRentals)
        = (Normal {| content := [text_block (JSON_stringify (JObject
             [ (js "explanation", JString (js "These shops offer delivery service to your accommodation."));
               (js "recommendations", JArray (List.map to_json recs)) ]))];
                     isError := None |}, skiRentals)
      ∧ recs = [paragon_ski_snowboard; telluride_ski_rental_delivery].
Proof.
  split; [reflexivity|]. split; [reflexivity|].
  destruct (recommend_delivery ascii_toLowerCase v8_message (skiRentals)
              (need_of "DELIVERY") (js "DELIVERY")) as (recs & Hcall & Hrecs & _);
    [reflexivity | reflexivity |].
  exists recs. split; [exact Hcall|]. rewrite Hrecs. vm_compute. reflexivity.
Defined.

Lemma recommend_budget_witness :
  need_of "Affordable" !! js "need" = Some (VString (js "Affordable"))
  ∧ ascii_toLowerCase (js "Affordable") = js "affordable"
  ∧ ∃ recs,
      CallTool_handler ascii_toLowerCase v8_message
          (request (js "get_rental_recommendations") (Some (need_of "Affordable")))
          (skiRentals ++ [numbered_shop])
        = (Normal {| content := [text_block (JSON_stringify (JObject
             [ (js "explanation", JString (js "These shops offer the most affordable rental options in the Telluride area."));
               (js "recommendations", JArray (List.map to_json recs)) ]))];
                     isError := None |}, skiRentals ++ [numbered_shop])
      ∧ recs = [jagged_edge; paragon_ski_snowboard; mountain_sports_telluride; numbered_shop].
Proof.
  split; [reflexivity|]. split; [reflexivity|].
  destruct (recommend_budget ascii_toLowerCase v8_message (skiRentals ++ [numbered_shop])
              (need_of "Affordable") (js "Affordable")) as (recs & Hcall & Hrecs & _);
    [reflexivity | right; reflexivity |].
  exists recs. split; [exact Hcall|]. rewrite Hrecs. vm_compute. reflexivity.
Defined.

Lemma recommend_family_witness :
  need_of "Kids" !! js "need" = Some (VString (js "Kids"))
  ∧ ascii_toLowerCase (js "Kids") = js "kids"
  ∧ ∃ recs,
      CallTool_handler ascii_toLowerCase v8_message
          (request (js "get_rental_recommendations") (Some (need_of "Kids")))
          (skiRentals)
        = (Normal {| content := [text_block (JSON_stringify (JObject
             [ (js "explanation", JString (js "These shops have great options for families and children's equipment."));
               (js "recommendations", JArray (List.map to_json recs)) ]))];
                     isError := None |}, skiRentals)
      ∧ recs = [telluride_sports; paragon_ski_snowboard; telluride_ski_rental_delivery; mountain_sports_telluride].
Proof.
  split; [reflexivity|]. split; [reflexivity|].
  destruct (recommend_family ascii_toLowerCase v8_message (skiRentals)
              (need_of "Kids") (js "Kids")) as (recs & Hcall & Hrecs & _);
    [reflexivity | right; reflexivity |].
  exists recs. split; [exact Hcall|]. rewrite Hrecs. vm_compute. reflexivity.
Defined.

(** * The handler over the heap *)

Section Memory.

Variable toLowerCase : jsstring → jsstring.
Variable TypeError_message : fault → jsstring.

Lemma rental_at_mono (h h' : heap) (l : loc) (r : SkiRental.t) :
  h ⊆ h' → rental_at h l r → rental_at h' l r.
Proof using Type.
  intros Hsub (sl & tl & Hl & Hs & Ht). exists sl, tl.
  repeat split; by eapply lookup_weaken.
Qed.

Lemma represents_mono (h h' : heap) (arr : loc) (store : list SkiRental.t) :
  h ⊆ h' → represents h arr store → represents h' arr store.
Proof using Type.
  intros Hsub (elements & Harr & Hall). exists elements.
  split; [by eapply lookup_weaken|].
  eapply Forall2_impl; [exact Hall|]. intros l r. by apply rental_at_mono.
Qed.

Lemma allocate_extends (c : cell) (h : heap) :
  ∃ l, run (allocate c) h = Some (Normal l, <[l := c]> h)
       ∧ h !! l = None ∧ h ⊆ <[l := c]> h.
Proof using Type.
  exists (fresh (dom h)).
  assert (h !! fresh (dom h) = None) as Hfresh.
  { apply not_elem_of_dom. apply is_fresh. }
  split; [done|]. split; [done|]. by apply insert_subseteq.
Qed.

Lemma reads_ret {A : Type} (v : A) (h : heap) : reads (mret v) h v.
Proof using Type. reflexivity. Qed.

Lemma reads_bind {A B : Type} (m : heap_op A) (f : A → heap_op B) (h : heap)
    (x : A) (y : B) :
  reads m h x → reads (f x) h y → reads (m ≫= f) h y.
Proof using Type.
  unfold reads. intros Hm Hf. unfold mbind, heap_op_bind. cbn [run]. by rewrite Hm.
Qed.

Lemma reads_get {A : Type} (property : RentalObject.t → A) (h : heap) (l : loc)
    (o : RentalObject.t) :
  h !! l = Some (Rental o) → reads (get property l) h (property o).
Proof using Type.
  intros Hl. unfold reads, get, mbind, heap_op_bind, read_rental. cbn [run].
  by rewrite Hl.
Qed.

Lemma reads_array_some (h : heap) (arr : loc) (elements : list jsstring)
    (cb : jsstring → bool) :
  h !! arr = Some (StringArray elements) →
  reads (array_some arr cb) h (existsb cb elements).
Proof using Type.
  intros Harr. unfold reads, array_some, mbind, heap_op_bind, read_strings. cbn [run].
  by rewrite Harr.
Qed.

Lemma reads_or_else (a b : heap_op bool) (h : heap) (x y : bool) :
  reads a h x → reads b h y → reads (or_else a b) h (x || y).
Proof using Type.
  unfold reads, or_else, mbind, heap_op_bind. intros Ha Hb. cbn [run]. rewrite Ha.
  by destruct x.
Qed.

Lemma reads_some_includes (tags : RentalObject.t → loc) (word : jsstring)
    (h : heap) (l : loc) (o : RentalObject.t) (elements : list jsstring) :
  h !! l = Some (Rental o) →
  h !! tags o = Some (StringArray elements) →
  reads (some_includes toLowerCase tags word l) h
        (existsb (fun t => includes (toLowerCase t) word) elements).
Proof using Type.
  intros Hl Harr. eapply reads_bind; [by apply reads_get|].
  by apply reads_array_some.
Qed.

Lemma reads_some_includes_either (tags : RentalObject.t → loc) (word word' : jsstring)
    (h : heap) (l : loc) (o : RentalObject.t) (elements : list jsstring) :
  h !! l = Some (Rental o) →
  h !! tags o = Some (StringArray elements) →
  reads (some_includes_either toLowerCase tags word word' l) h
        (existsb (fun t => includes (toLowerCase t) word
                           || includes (toLowerCase t) word') elements).
Proof using Type.
  intros Hl Harr. eapply reads_bind; [by apply reads_get|].
  by apply reads_array_some.
Qed.

Ltac callback_reads Hl Hs Ht :=
  repeat apply reads_or_else;
  first [ eapply reads_some_includes; [exact Hl | first [exact Hs | exact Ht]]
        | eapply reads_some_includes_either; [exact Hl | first [exact Hs | exact Ht]]
        | unfold id_is; eapply reads_bind;
          [eapply reads_get; exact Hl | exact (reads_ret _ _)] ].

Lemma search_callback_reads (query : jsstring) (h : heap) (l : loc) (r : SkiRental.t) :
  rental_at h l r →
  reads (search_callback toLowerCase query l) h (search_matches toLowerCase query r).
Proof using Type.
  intros (sl & tl & Hl & Hs & Ht).
  unfold search_callback, search_matches. callback_reads Hl Hs Ht.
Qed.

Lemma run_bind_reads {A B : Type} (m : heap_op A) (f : A → heap_op B) (h : heap) (x : A) :
  reads m h x → run (m ≫= f) h = run (f x) h.
Proof using Type.
  unfold reads. intros Hm. unfold mbind, heap_op_bind. cbn [run]. by rewrite Hm.
Qed.

Lemma run_bind_normal {A B : Type} (m : heap_op A) (f : A → heap_op B) (h h' : heap)
    (x : A) :
  run m h = Some (Normal x, h') → run (m ≫= f) h = run (f x) h'.
Proof using Type.
  intros Hm. unfold mbind, heap_op_bind. cbn [run]. by rewrite Hm.
Qed.

Lemma run_bind_lift {A B : Type} (c : completion A) (f : A → heap_op B) (h : heap) :
  run (lift c ≫= f) h
  = match c with
    | Normal a => run (f a) h
    | Throw e => Some (Throw e, h)
    end.
Proof using Type. by destruct c. Qed.

Lemma filter_elements_reads (cb : loc → heap_op bool) (p : SkiRental.t → bool)
    (h : heap) (elements : list loc) (records : list SkiRental.t) :
  Forall2 (rental_at h) elements records →
  (∀ l r, rental_at h l r → reads (cb l) h (p r)) →
  ∃ kept, reads (filter_elements cb elements) h kept
          ∧ Forall2 (rental_at h) kept (List.filter p records).
Proof using Type.
  intros Hall Hcb. induction Hall as [|l r elements records Hlr Hall IH].
  - exists []. split; [apply reads_ret | constructor].
  - destruct IH as (kept & Hkept & Hrel).
    exists (if p r then l :: kept else kept). split.
    + cbn [filter_elements]. eapply reads_bind; [by apply Hcb|].
      eapply reads_bind; [exact Hkept | apply reads_ret].
    + cbn [List.filter]. destruct (p r); [by constructor | done].
Qed.

Lemma array_filter_spec (cb : loc → heap_op bool) (p : SkiRental.t → bool)
    (h : heap) (arr : loc) (records : list SkiRental.t) :
  represents h arr records →
  (∀ l r, rental_at h l r → reads (cb l) h (p r)) →
  ∃ arr' h', run (array_filter arr cb) h = Some (Normal arr', h')
             ∧ h ⊆ h' ∧ represents h' arr' (List.filter p records).
Proof using Type.
  intros (elements & Harr & Hall) Hcb.
  destruct (filter_elements_reads cb p h elements records Hall Hcb) as (kept & Hkept & Hrel).
  destruct (allocate_extends (ObjectArray kept) h) as (arr' & Hrun & Hfresh & Hsub).
  exists arr', (<[arr' := ObjectArray kept]> h).
  split; [|split; [done|]].
  - unfold array_filter.
    rewrite (run_bind_reads (read_objects arr) _ h elements).
    + by rewrite (run_bind_reads _ _ h kept Hkept).
    + unfold reads, read_objects. cbn [run]. by rewrite Harr.
  - exists kept. split; [apply lookup_insert_eq|].
    eapply Forall2_impl; [exact Hrel|]. intros l r. by apply rental_at_mono.
Qed.

Lemma find_element_reads (cb : loc → heap_op bool) (p : SkiRental.t → bool)
    (h : heap) (elements : list loc) (records : list SkiRental.t) :
  Forall2 (rental_at h) elements records →
  (∀ l r, rental_at h l r → reads (cb l) h (p r)) →
  ∃ found, reads (find_element cb elements) h found
           ∧ match List.find p records with
             | Some r => ∃ l, found = Some l ∧ rental_at h l r
             | None => found = None
             end.
Proof using Type.
  intros Hall Hcb. induction Hall as [|l r elements records Hlr Hall IH].
  - exists None. split; [apply reads_ret | done].
  - destruct IH as (found & Hfound & Hrel). cbn [find_element List.find].
    destruct (p r) eqn:Hp.
    + exists (Some l). split; [|by exists l].
      eapply reads_bind; [by apply Hcb|]. rewrite Hp. apply reads_ret.
    + exists found. split; [|done].
      eapply reads_bind; [by apply Hcb|]. by rewrite Hp.
Qed.

Lemma array_find_reads (cb : loc → heap_op bool) (p : SkiRental.t → bool)
    (h : heap) (arr : loc) (records : list SkiRental.t) :
  represents h arr records →
  (∀ l r, rental_at h l r → reads (cb l) h (p r)) →
  ∃ found, reads (array_find arr cb) h found
           ∧ match List.find p records with
             | Some r => ∃ l, found = Some l ∧ rental_at h l r
             | None => found = None
             end.
Proof using Type.
  intros (elements & Harr & Hall) Hcb.
  destruct (find_element_reads cb p h elements records Hall Hcb) as (found & Hfound & Hrel).
  exists found. split; [|done].
  unfold array_find. eapply reads_bind; [|exact Hfound].
  unfold reads, read_objects. cbn [run]. by rewrite Harr.
Qed.

Lemma record_json_reads (h : heap) (l : loc) (r : SkiRental.t) :
  rental_at h l r → reads (record_json l) h (to_json r).
Proof using Type.
  intros (sl & tl & Hl & Hs & Ht). unfold record_json.
  eapply reads_bind; [|apply reads_ret].
  unfold read_record.
  eapply reads_bind; [unfold reads, read_rental; cbn [run]; by rewrite Hl|].
  eapply reads_bind;
    [unfold reads, read_strings; cbn [run RentalObject.services object_of]; by rewrite Hs|].
  eapply reads_bind;
    [unfold reads, read_strings; cbn [run RentalObject.rentalTypes object_of]; by rewrite Ht|].
  destruct r. apply reads_ret.
Qed.

Lemma elements_json_reads (h : heap) (elements : list loc) (records : list SkiRental.t) :
  Forall2 (rental_at h) elements records →
  reads (elements_json elements) h (List.map to_json records).
Proof using Type.
  induction 1 as [|l r elements records Hlr Hall IH]; [apply reads_ret|].
  cbn [elements_json List.map].
  eapply reads_bind; [by apply record_json_reads|].
  eapply reads_bind; [exact IH | apply reads_ret].
Qed.

Lemma array_json_reads (h : heap) (arr : loc) (records : list SkiRental.t) :
  represents h arr records →
  reads (array_json arr) h (JArray (List.map to_json records)).
Proof using Type.
  intros (elements & Harr & Hall). unfold array_json.
  eapply reads_bind; [unfold reads, read_objects; cbn [run]; by rewrite Harr|].
  eapply reads_bind; [by apply elements_json_reads | apply reads_ret].
Qed.

Ltac filter_case Hrep :=
  match goal with
  | |- context [array_filter ?a ?cb] =>
      match goal with
      | |- context [List.filter ?p ?store] =>
          let arr' := fresh "arr'" in
          let h' := fresh "h'" in
          let Hrun := fresh "Hrun" in
          let Hsub := fresh "Hsub" in
          let Hrep' := fresh "Hrep'" in
          destruct (array_filter_spec cb p _ a store Hrep)
            as (arr' & h' & Hrun & Hsub & Hrep');
          [ let l := fresh "l" in
            let r := fresh "r" in
            let sl := fresh "sl" in
            let tl := fresh "tl" in
            let Hl := fresh "Hl" in
            let Hs := fresh "Hs" in
            let Ht := fresh "Ht" in
            intros l r (sl & tl & Hl & Hs & Ht); callback_reads Hl Hs Ht
          | eexists _, h'; rewrite (run_bind_normal _ _ _ _ _ Hrun);
            split; [reflexivity|]; split; [exact Hsub|]; split; [reflexivity|];
            exact Hrep' ]
      end
  end.

Lemma recommend_heap_refines (h : heap) (catalog : loc) (store : list SkiRental.t)
    (need : jsstring) :
  represents h catalog store →
  ∃ response h',
    run (recommend_heap toLowerCase catalog need) h = Some (Normal response, h')
    ∧ h ⊆ h'
    ∧ explanation_text response = explanation (recommend toLowerCase store need)
    ∧ represents h' (recommendations_ref response)
        (recommendations (recommend toLowerCase store need)).
Proof using Type.
  intros Hrep. unfold recommend_heap, recommend.
  repeat match goal with
         | |- context [if ?b then _ else _] => destruct b
         end;
    try filter_case Hrep.
  eexists _, h. split; [reflexivity|]. split; [done|]. split; [reflexivity|]. exact Hrep.
Qed.

Lemma handler_refines (h : heap) (catalog : loc) (store : list SkiRental.t)
    (req : CallToolRequest.params) :
  represents h catalog store →
  ∃ h',
    run (CallTool_handler_heap toLowerCase TypeError_message catalog req) h
      = Some (fst (CallTool_handler toLowerCase TypeError_message req store), h')
    ∧ h ⊆ h'.
Proof using Type.
  intros Hrep. destruct req as [name args].
  unfold CallTool_handler_heap, CallTool_handler, try_catch_heap.
  cbn [CallToolRequest.name CallToolRequest.arguments fst run].
  unfold try_block_heap, try_block.
  destruct (string_strict_eq name (js "list_ski_rentals")).
  { exists h. split; [|done].
    rewrite (run_bind_reads _ _ h _ (array_json_reads h catalog store Hrep)).
    reflexivity. }
  destruct (string_strict_eq name (js "get_rental_details")).
  { exists h. split; [|done]. rewrite run_bind_lift.
    destruct (get_property TypeError_message args (js "rental_id")) as [v|e]; [|done].
    cbn [mbind completion_bind].
    destruct (array_find_reads
                (fun r => id ← get RentalObject.id r; mret (strict_equals id v))
                (fun r => strict_equals (SkiRental.id r) v) h catalog store Hrep)
      as (found & Hfound & Hrel).
    { intros l r (sl & tl & Hl & Hs & Ht).
      eapply reads_bind; [eapply reads_get; exact Hl | exact (reads_ret _ _)]. }
    rewrite (run_bind_reads _ _ h _ Hfound).
    destruct (List.find _ store) as [r|].
    - destruct Hrel as (l & -> & Hlr).
      rewrite (run_bind_reads _ _ h _ (record_json_reads h l r Hlr)). reflexivity.
    - subst found. rewrite run_bind_lift.
      by destruct (ToString TypeError_message v). }
  destruct (string_strict_eq name (js "search_rentals")).
  { rewrite run_bind_lift.
    destruct (get_property TypeError_message args (js "query")) as [v|e];
      [|by exists h].
    cbn [mbind completion_bind]. rewrite run_bind_lift.
    destruct (call_toLowerCase toLowerCase TypeError_message (js "args.query") v)
      as [query|e]; [|by exists h].
    cbn [mbind completion_bind].
    destruct (array_filter_spec (search_callback toLowerCase query)
                (search_matches toLowerCase query) h catalog store Hrep)
      as (arr' & h' & Hrun & Hsub & Hrep').
    { intros l r. apply search_callback_reads. }
    exists h'. split; [|done].
    rewrite (run_bind_normal _ _ _ _ _ Hrun).
    rewrite (run_bind_reads _ _ h' _ (array_json_reads h' arr' _ Hrep')).
    reflexivity. }
  destruct (string_strict_eq name (js "get_rental_recommendations")).
  { rewrite run_bind_lift.
    destruct (get_property TypeError_message args (js "need")) as [v|e];
      [|by exists h].
    cbn [mbind completion_bind]. rewrite run_bind_lift.
    destruct (call_toLowerCase toLowerCase TypeError_message (js "args.need") v)
      as [need|e]; [|by exists h].
    cbn [mbind completion_bind].
    destruct (allocate_extends (ObjectArray []) h) as (initial & Hrun0 & _ & Hsub0).
    destruct (recommend_heap_refines _ catalog store need
                (represents_mono _ _ catalog store Hsub0 Hrep))
      as (response & h' & Hrun & Hsub & Hexp & Hrep').
    exists h'. split; [|by etransitivity].
    rewrite (run_bind_normal _ _ _ _ _ Hrun0).
    rewrite (run_bind_normal _ _ _ _ _ Hrun).
    rewrite (run_bind_reads _ _ h' _ (array_json_reads h' _ _ Hrep')).
    unfold response_json. rewrite Hexp. reflexivity. }
  by exists h.
Qed.

Lemma serve_heap_refines (requests : list CallToolRequest.params) (h : heap)
    (catalog : loc) (store : list SkiRental.t) :
  represents h catalog store →
  ∃ h',
    serve_heap toLowerCase TypeError_message catalog requests h
      = Some (List.map (fun req =>
                fst (CallTool_handler toLowerCase TypeError_message req store)) requests,
              h')
    ∧ h ⊆ h'.
Proof using Type.
  revert h. induction requests as [|req requests IH]; intros h Hrep.
  - by exists h.
  - destruct (handler_refines h catalog store req Hrep) as (h1 & Hrun & Hsub).
    destruct (IH h1 (represents_mono h h1 catalog store Hsub Hrep)) as (h2 & Hrest & Hsub').
    exists h2. split; [|by transitivity h1].
    cbn [serve_heap List.map]. by rewrite Hrun, Hrest.
Qed.

Lemma allocate_rental_spec (r : SkiRental.t) (h : heap) :
  ∃ l h', run (allocate_rental r) h = Some (Normal l, h')
          ∧ h ⊆ h' ∧ rental_at h' l r.
Proof using Type.
  destruct (allocate_extends (StringArray (SkiRental.services r)) h)
    as (sl & Hrun1 & Hfresh1 & Hsub1).
  destruct (allocate_extends (StringArray (SkiRental.rentalTypes r))
              (<[sl := StringArray (SkiRental.services r)]> h))
    as (tl & Hrun2 & Hfresh2 & Hsub2).
  destruct (allocate_extends (Rental (object_of r sl tl))
              (<[tl := StringArray (SkiRental.rentalTypes r)]>
                 (<[sl := StringArray (SkiRental.services r)]> h)))
    as (l & Hrun3 & Hfresh3 & Hsub3).
  eexists l, _. split; [|split].
  - unfold allocate_rental.
    rewrite (run_bind_normal _ _ _ _ _ Hrun1), (run_bind_normal _ _ _ _ _ Hrun2).
    exact Hrun3.
  - by do 2 (etransitivity; [eassumption|]).
  - exists sl, tl. split; [apply lookup_insert_eq|]. split.
    + eapply lookup_weaken; [|exact Hsub3].
      eapply lookup_weaken; [|exact Hsub2]. apply lookup_insert_eq.
    + eapply lookup_weaken; [|exact Hsub3]. apply lookup_insert_eq.
Qed.

Lemma allocate_rentals_spec (records : list SkiRental.t) (h : heap) :
  ∃ elements h', run (allocate_rentals records) h = Some (Normal elements, h')
                 ∧ h ⊆ h' ∧ Forall2 (rental_at h') elements records.
Proof using Type.
  revert h. induction records as [|r records IH]; intros h.
  - exists [], h. split; [done|]. split; [done | constructor].
  - destruct (allocate_rental_spec r h) as (l & h1 & Hrun & Hsub & Hlr).
    destruct (IH h1) as (elements & h2 & Hrest & Hsub' & Hall).
    exists (l :: elements), h2. split; [|split].
    + cbn [allocate_rentals].
      by rewrite (run_bind_normal _ _ _ _ _ Hrun), (run_bind_normal _ _ _ _ _ Hrest).
    + by transitivity h1.
    + constructor; [by eapply rental_at_mono | done].
Qed.

Lemma load_catalog_represents (records : list SkiRental.t) (h : heap) :
  ∃ catalog h', run (load_catalog records) h = Some (Normal catalog, h')
                ∧ h ⊆ h' ∧ represents h' catalog records.
Proof using Type.
  destruct (allocate_rentals_spec records h) as (elements & h1 & Hrun & Hsub & Hall).
  destruct (allocate_extends (ObjectArray elements) h1) as (arr & Hrun' & Hfresh & Hsub').
  exists arr, (<[arr := ObjectArray elements]> h1). split; [|split].
  - unfold load_catalog. by rewrite (run_bind_normal _ _ _ _ _ Hrun).
  - by transitivity h1.
  - exists elements. split; [apply lookup_insert_eq|].
    eapply Forall2_impl; [exact Hall|]. intros l r. by apply rental_at_mono.
Qed.

Lemma list_ski_rentals_heap (h : heap) (catalog : loc) (store : list SkiRental.t)
    (args : option (gmap jsstring jsvalue)) :
  represents h catalog store →
  run (CallTool_handler_heap toLowerCase TypeError_message catalog
         (request (js "list_ski_rentals") args)) h
    = Some (Normal (success (JSON_stringify (JArray (List.map to_json store)))), h).
Proof using Type.
  intros Hrep. unfold CallTool_handler_heap, try_catch_heap, request.
  cbn [CallToolRequest.name CallToolRequest.arguments run].
  unfold try_block_heap.
  change (string_strict_eq (js "list_ski_rentals") (js "list_ski_rentals")) with true.
  cbv iota.
  by rewrite (run_bind_reads _ _ h _ (array_json_reads h catalog store Hrep)).
Qed.

(** C9: on a heap that holds the catalog, any sequence of calls is answered
    call by call as on the catalog itself, whatever calls came before, so
    equal calls get equal answers; every object that was on the heap before
    the calls (the catalog array, its records, their tag arrays) is on it
    unchanged after them, and the heap still holds the same catalog; and
    [list_ski_rentals], at any such point, answers with the serialization
    of all the records in catalog order and leaves the heap as it is. *)
Theorem catalog_never_mutated (h : heap) (catalog : loc) (store : list SkiRental.t)
    (requests : list CallToolRequest.params) (args : option (gmap jsstring jsvalue)) :
  represents h catalog store →
  ∃ h',
    serve_heap toLowerCase TypeError_message catalog requests h
      = Some (List.map (fun req =>
                fst (CallTool_handler toLowerCase TypeError_message req store)) requests,
              h')
    ∧ h ⊆ h'
    ∧ represents h' catalog store
    ∧ run (CallTool_handler_heap toLowerCase TypeError_message catalog
             (request (js "list_ski_rentals") args)) h'
      = Some (Normal {| content :=
                          [text_block (JSON_stringify (JArray (List.map to_json store)))];
                        isError := None |}, h').
Proof using Type.
  intros Hrep.
  destruct (serve_heap_refines requests h catalog store Hrep) as (h' & Hserve & Hsub).
  pose proof (represents_mono h h' catalog store Hsub Hrep) as Hrep'.
  exists h'. split; [exact Hserve|]. split; [exact Hsub|]. split; [exact Hrep'|].
  by apply list_ski_rentals_heap.
Qed.

End Memory.

(** ** The handler run on the loaded catalog *)

Lemma catalog_never_mutated_witness :
  ∃ catalog h0 h',
    run (load_catalog skiRentals) ∅ = Some (Normal catalog, h0)
    ∧ represents h0 catalog skiRentals
    ∧ serve_heap ascii_toLowerCase v8_message catalog
        [ request (js "search_rentals") (Some backcountry_query);
          request (js "get_rental_recommendations") (Some nonsense_need);
          request (js "get_rental_details") (Some bootdoctors_id);
          request (js "search_rentals") (Some backcountry_query) ] h0
      = Some (List.map (fun req =>
                fst (CallTool_handler ascii_toLowerCase v8_message req skiRentals))
                [ request (js "search_rentals") (Some backcountry_query);
                  request (js "get_rental_recommendations") (Some nonsense_need);
                  request (js "get_rental_details") (Some bootdoctors_id);
                  request (js "search_rentals") (Some backcountry_query) ],
              h')
    ∧ h0 ⊆ h'
    ∧ represents h' catalog skiRentals
    ∧ run (CallTool_handler_heap ascii_toLowerCase v8_message catalog
             (request (js "list_ski_rentals") None)) h'
      = Some (Normal {| content :=
                          [text_block (JSON_stringify (JArray (List.map to_json skiRentals)))];
                        isError := None |}, h').
Proof.
  destruct (load_catalog_represents skiRentals ∅) as (catalog & h0 & Hload & _ & Hrep).
  destruct (catalog_never_mutated ascii_toLowerCase v8_message h0 catalog skiRentals
              [ request (js "search_rentals") (Some backcountry_query);
                request (js "get_rental_recommendations") (Some nonsense_need);
                request (js "get_rental_details") (Some bootdoctors_id);
                request (js "search_rentals") (Some backcountry_query) ] None Hrep)
    as (h' & Hserve & Hsub & Hrep' & Hlist).
  exists catalog, h0, h'. repeat split; assumption.
Defined.
